(** * Extension-host supervisor and local terminal backend

    A shallow embedding of two coordination classes of the workbench:

    - [ExtensionHostProcessManager]
      (src/vs/workbench/services/thread/electron-browser/threadService.ts),
      the supervisor of the extension-host child process;
    - [LocalTerminalBackend]
      (src/vs/workbench/contrib/terminal/electron-sandbox/localTerminalBackend.ts),
      the registry of local ptys with its revival and health logic.

    Both classes are event driven and single threaded.  Every method is
    embedded as a function from the object's fields to the new fields and the
    list of effects it performs on its collaborators, in program order. *)

From Stdlib Require Import Floats.
From stdpp Require Import gmap strings list.

Set Warnings "-register-all".

(* ================================================================== *)
(** * Part I: definitions *)
(* ================================================================== *)

(** ** JavaScript values

    Messages ([msg: any]) and parsed JSON ([JSON.parse]) are untyped in the
    source; the guards of the code inspect them dynamically, so they are kept
    as dynamic values.  Numbers are IEEE doubles.  An array carries its
    elements and, being an object, named properties of its own. *)
Module Js.

Inductive value : Type :=
| VUndefined
| VNull
| VBool (b : bool)
| VNum (n : float)
| VStr (s : string)
| VArr (elems : list value) (props : gmap string value)
| VObj (props : gmap string value).

Inductive error : Type :=
| TypeError
| SyntaxError
| Rejected (reason : string).

(** The outcome of an expression or call: a value or a thrown exception. *)
Inductive result (A : Type) : Type :=
| Ok (a : A)
| Throw (e : error).
Arguments Ok {A} a.
Arguments Throw {A} e.

(** [!!v] *)
Definition truthy (v : value) : bool :=
  match v with
  | VUndefined | VNull => false
  | VBool b => b
  | VNum n => negb (PrimFloat.eqb n 0 || PrimFloat.is_nan n)
  | VStr s => negb (String.eqb s "")
  | VArr _ _ | VObj _ => true
  end.

(** [v.k], for a name [k] that no built-in prototype defines (all the names
    the source reads are such: version, state, type, env, ...). *)
Definition get_prop (v : value) (k : string) : result value :=
  match v with
  | VUndefined | VNull => Throw TypeError
  | VObj p | VArr _ p => Ok (default VUndefined (p !! k))
  | VBool _ | VNum _ | VStr _ => Ok VUndefined
  end.

(** [k in v]: a TypeError unless [v] is an object. *)
Definition has_prop (k : string) (v : value) : result bool :=
  match v with
  | VObj p | VArr _ p => Ok (bool_decide (is_Some (p !! k)))
  | _ => Throw TypeError
  end.

(** [v.k = x] in strict-mode code (modules are strict): the updated object. *)
Definition set_prop (v : value) (k : string) (x : value) : result value :=
  match v with
  | VObj p => Ok (VObj (<[k:=x]> p))
  | VArr l p => Ok (VArr l (<[k:=x]> p))
  | _ => Throw TypeError
  end.

(** [Array.isArray(v)] *)
Definition isArray (v : value) : bool :=
  match v with VArr _ _ => true | _ => false end.

(** [v === s] for a string literal [s] *)
Definition is_string (s : string) (v : value) : bool :=
  match v with VStr s' => String.eqb s' s | _ => false end.

(** [v === n] for a number literal [n] *)
Definition is_number (n : float) (v : value) : bool :=
  match v with VNum n' => PrimFloat.eqb n' n | _ => false end.

(** An object literal [{k1: v1, ...}]. *)
Definition obj (fields : list (string * value)) : value :=
  VObj (list_to_map fields).

(** An array as [JSON.parse] builds it: no named property of its own. *)
Definition arr (elems : list value) : value := VArr elems ∅.

End Js.

(** ** The extension-host supervisor (threadService.ts) *)
Module Thread.
Import Js.

Inductive Severity : Type := SevInfo | SevWarning | SevError.

Inductive Action : Type := ReloadWindowAction.

(** What the supervisor does to its collaborators. *)
Inductive effect : Type :=
| Send (payload : value)                 (* extensionHostProcessHandle.send *)
| Callback (msg : value)                 (* onExtensionHostMessage(msg) *)
| Show (sev : Severity) (message : string) (actions : list Action)
                                         (* messageService.show *)
| SetTimeout (ms : Z)
| ClearTimeout
| ConsoleLog (entry : value)             (* console[severity].apply *)
| ConsoleError (code signal : value)
| IpcSend (channel : string) (arg : value)
| Broadcast (channel : string) (payload : value)
| WindowClose
| RemoveExitListener.

(** [TPromise<ChildProcess>] of vs/base/common/winjs.base, which is not among
    the sources.  The supervisor only ever registers listeners of the shape
    [p => p.send(msg)] on it, through [done]; a listener is kept as its
    [msg].  Listeners of a pending promise run in registration order when it
    completes. *)
Inductive promise : Type :=
| Pending (listeners : list value)
| Fulfilled.

(** IEnvironmentService and the other injected values the class reads. *)
Record Environment : Type := {
  isBuilt : bool;
  extensionDevelopmentPath : option string;
  extensionTestsPath : option string;
  debugBreak : bool;                     (* debugExtensionHost.break *)
  initPayload : string;                  (* stringify({parentPid, ...}) *)
  toErrorMessage : value -> string       (* vs/base/common/errorMessage *)
}.

(** The fields of [ExtensionHostProcessManager]. *)
Record state : Type := {
  initializeExtensionHostProcess : option promise;
  extensionHostProcessHandle : bool;     (* has the child been forked *)
  extensionHostProcessReady : bool;
  initializeTimer : bool;
  lastExtensionHostError : option string;
  unsentMessages : list value;
  terminating : bool;
  isExtensionDevelopmentHost : bool;
  isExtensionDevelopmentTestFromCli : bool;
  isExtensionDevelopmentDebugging : bool
}.

Definition set_promise (p : option promise) (s : state) : state :=
  {| initializeExtensionHostProcess := p;
     extensionHostProcessHandle := extensionHostProcessHandle s;
     extensionHostProcessReady := extensionHostProcessReady s;
     initializeTimer := initializeTimer s;
     lastExtensionHostError := lastExtensionHostError s;
     unsentMessages := unsentMessages s;
     terminating := terminating s;
     isExtensionDevelopmentHost := isExtensionDevelopmentHost s;
     isExtensionDevelopmentTestFromCli := isExtensionDevelopmentTestFromCli s;
     isExtensionDevelopmentDebugging := isExtensionDevelopmentDebugging s |}.

Definition set_handle (b : bool) (s : state) : state :=
  {| initializeExtensionHostProcess := initializeExtensionHostProcess s;
     extensionHostProcessHandle := b;
     extensionHostProcessReady := extensionHostProcessReady s;
     initializeTimer := initializeTimer s;
     lastExtensionHostError := lastExtensionHostError s;
     unsentMessages := unsentMessages s;
     terminating := terminating s;
     isExtensionDevelopmentHost := isExtensionDevelopmentHost s;
     isExtensionDevelopmentTestFromCli := isExtensionDevelopmentTestFromCli s;
     isExtensionDevelopmentDebugging := isExtensionDevelopmentDebugging s |}.

Definition set_ready (b : bool) (s : state) : state :=
  {| initializeExtensionHostProcess := initializeExtensionHostProcess s;
     extensionHostProcessHandle := extensionHostProcessHandle s;
     extensionHostProcessReady := b;
     initializeTimer := initializeTimer s;
     lastExtensionHostError := lastExtensionHostError s;
     unsentMessages := unsentMessages s;
     terminating := terminating s;
     isExtensionDevelopmentHost := isExtensionDevelopmentHost s;
     isExtensionDevelopmentTestFromCli := isExtensionDevelopmentTestFromCli s;
     isExtensionDevelopmentDebugging := isExtensionDevelopmentDebugging s |}.

Definition set_timer (b : bool) (s : state) : state :=
  {| initializeExtensionHostProcess := initializeExtensionHostProcess s;
     extensionHostProcessHandle := extensionHostProcessHandle s;
     extensionHostProcessReady := extensionHostProcessReady s;
     initializeTimer := b;
     lastExtensionHostError := lastExtensionHostError s;
     unsentMessages := unsentMessages s;
     terminating := terminating s;
     isExtensionDevelopmentHost := isExtensionDevelopmentHost s;
     isExtensionDevelopmentTestFromCli := isExtensionDevelopmentTestFromCli s;
     isExtensionDevelopmentDebugging := isExtensionDevelopmentDebugging s |}.

Definition set_lastError (e : option string) (s : state) : state :=
  {| initializeExtensionHostProcess := initializeExtensionHostProcess s;
     extensionHostProcessHandle := extensionHostProcessHandle s;
     extensionHostProcessReady := extensionHostProcessReady s;
     initializeTimer := initializeTimer s;
     lastExtensionHostError := e;
     unsentMessages := unsentMessages s;
     terminating := terminating s;
     isExtensionDevelopmentHost := isExtensionDevelopmentHost s;
     isExtensionDevelopmentTestFromCli := isExtensionDevelopmentTestFromCli s;
     isExtensionDevelopmentDebugging := isExtensionDevelopmentDebugging s |}.

Definition set_unsent (l : list value) (s : state) : state :=
  {| initializeExtensionHostProcess := initializeExtensionHostProcess s;
     extensionHostProcessHandle := extensionHostProcessHandle s;
     extensionHostProcessReady := extensionHostProcessReady s;
     initializeTimer := initializeTimer s;
     lastExtensionHostError := lastExtensionHostError s;
     unsentMessages := l;
     terminating := terminating s;
     isExtensionDevelopmentHost := isExtensionDevelopmentHost s;
     isExtensionDevelopmentTestFromCli := isExtensionDevelopmentTestFromCli s;
     isExtensionDevelopmentDebugging := isExtensionDevelopmentDebugging s |}.

Definition set_terminating (b : bool) (s : state) : state :=
  {| initializeExtensionHostProcess := initializeExtensionHostProcess s;
     extensionHostProcessHandle := extensionHostProcessHandle s;
     extensionHostProcessReady := extensionHostProcessReady s;
     initializeTimer := initializeTimer s;
     lastExtensionHostError := lastExtensionHostError s;
     unsentMessages := unsentMessages s;
     terminating := b;
     isExtensionDevelopmentHost := isExtensionDevelopmentHost s;
     isExtensionDevelopmentTestFromCli := isExtensionDevelopmentTestFromCli s;
     isExtensionDevelopmentDebugging := isExtensionDevelopmentDebugging s |}.

(** [!!path] for an optional string. *)
Definition defined_path (p : option string) : bool :=
  match p with Some s => negb (String.eqb s "") | None => false end.

(** The constructor. *)
Definition constructor (env : Environment) : state :=
  let dev := defined_path (extensionDevelopmentPath env) in
  {| initializeExtensionHostProcess := None;
     extensionHostProcessHandle := false;
     extensionHostProcessReady := false;
     initializeTimer := false;
     lastExtensionHostError := None;
     unsentMessages := [];
     terminating := false;
     isExtensionDevelopmentHost := dev;
     isExtensionDevelopmentTestFromCli :=
       dev && defined_path (extensionTestsPath env) && negb (debugBreak env);
     isExtensionDevelopmentDebugging := debugBreak env |}.

Definition EXTENSION_LOG_BROADCAST_CHANNEL : string := "vscode:extensionLog".
Definition EXTENSION_ATTACH_BROADCAST_CHANNEL : string := "vscode:extensionAttach".

(** [startExtensionHostProcess], up to the point where the debug port is
    being resolved: the start-up timer and the handshake promise. *)
Definition startExtensionHostProcess (env : Environment) (s : state)
  : state * list effect :=
  let '(s1, out) :=
    if negb (isBuilt env) || isExtensionDevelopmentHost s
    then (set_timer true s, [SetTimeout 10000])
    else (s, []) in
  (set_promise (Some (Pending [])) s1, out).

(** The continuation of [resolveDebugPort] in
    [doInitializeExtensionHostProcess]: fork, announce the debug port, attach
    the listeners. *)
Definition forkExtensionHost (port : value) (s : state)
  : state * list effect :=
  (set_handle true s,
   if isExtensionDevelopmentHost s && truthy port
   then [Broadcast EXTENSION_ATTACH_BROADCAST_CHANNEL (obj [("port", port)])]
   else []).

(** [promise.done(p => p.send(msg))] *)
Definition done_send (p : promise) (msg : value) : promise * list effect :=
  match p with
  | Pending ls => (Pending (ls ++ [msg]), [])
  | Fulfilled => (Fulfilled, [Send msg])
  end.

(** [c(this.extensionHostProcessHandle)]: complete the promise. *)
Definition complete (p : promise) : promise * list effect :=
  match p with
  | Pending ls => (Fulfilled, Send <$> ls)
  | Fulfilled => (Fulfilled, [])
  end.

Definition postMessage (msg : value) (s : state) : state * list effect :=
  if extensionHostProcessReady s then (s, [Send msg])
  else match initializeExtensionHostProcess s with
       | Some p =>
           let '(p', out) := done_send p msg in
           (set_promise (Some p') s, out)
       | None => (set_unsent (unsentMessages s ++ [msg]) s, [])
       end.

(** [list.forEach(m => this.postMessage(m))] *)
Fixpoint forEach_postMessage (l : list value) (s : state)
  : state * list effect :=
  match l with
  | [] => (s, [])
  | m :: l' =>
      let '(s1, out1) := postMessage m s in
      let '(s2, out2) := forEach_postMessage l' s1 in
      (s2, out1 ++ out2)
  end.

Definition initializeExtensionHost (env : Environment) (s : state)
  : state * list effect :=
  (s, (if initializeTimer s then [ClearTimeout] else [])
      ++ [Send (VStr (initPayload env))]).

(** [logExtensionHostMessage]: where the entry goes; the formatting of the
    console arguments is not modelled. *)
Definition logExtensionHostMessage (env : Environment) (entry : value)
    (s : state) : state * list effect :=
  (s, (if negb (isExtensionDevelopmentTestFromCli s)
       then [ConsoleLog entry] else [])
      ++ (if isExtensionDevelopmentTestFromCli s
          then [IpcSend "vscode:log" entry]
          else if negb (isBuilt env) || isExtensionDevelopmentHost s
               then [Broadcast EXTENSION_LOG_BROADCAST_CHANNEL entry]
               else [])).

(** [msg && msg.type === '__$console'] *)
Definition is_log_entry (msg : value) : bool :=
  truthy msg &&
  match get_prop msg "type" with
  | Ok t => is_string "__$console" t
  | Throw _ => false
  end.

(** [onMessaage]; the boolean is its result, true when the host is ready. *)
Definition onMessaage (env : Environment) (msg : value) (s : state)
  : state * list effect * bool :=
  if is_string "ready" msg then
    let '(s', out) := initializeExtensionHost env s in (s', out, false)
  else if is_string "initialized" msg then
    let '(s1, out) := forEach_postMessage (unsentMessages s) s in
    (set_ready true (set_unsent [] s1), out, true)
  else if is_log_entry msg then
    let '(s', out) := logExtensionHostMessage env msg s in (s', out, false)
  else
    (s, [Callback msg], false).

(** The 'message' listener of the child:
    [msg => { if (this.onMessaage(msg, ...)) c(this.extensionHostProcessHandle) }] *)
Definition on_message (env : Environment) (msg : value) (s : state)
  : state * list effect :=
  let '(s1, out1, ready) := onMessaage env msg s in
  if ready then
    match initializeExtensionHostProcess s1 with
    | Some p =>
        let '(p', out2) := complete p in
        (set_promise (Some p') s1, out1 ++ out2)
    | None => (s1, out1)
    end
  else (s1, out1).

Definition onError (env : Environment) (err : value) (s : state)
  : state * list effect :=
  let errorMessage := toErrorMessage env err in
  if bool_decide (lastExtensionHostError s = Some errorMessage) then (s, [])
  else (set_lastError (Some errorMessage) s,
        [Show SevError ("Error from the extension host: " +:+ errorMessage) []]).

Definition crash_message : string :=
  "Extension host terminated unexpectedly. Please reload the window to recover.".

Definition onExit (code signal : value) (s : state) : state * list effect :=
  (s, RemoveExitListener ::
      if negb (terminating s) then
        if negb (isExtensionDevelopmentHost s) then
          [Show SevError crash_message [ReloadWindowAction];
           ConsoleError code signal]
        else if negb (isExtensionDevelopmentTestFromCli s) then
          [WindowClose]
        else
          [IpcSend "vscode:exit" code]
      else []).

Definition terminate_message : value := obj [("type", VStr "__$terminate")].

Definition terminate (s : state) : state * list effect :=
  (set_terminating true s,
   if extensionHostProcessHandle s then [Send terminate_message] else []).

(** What can happen to a supervisor: calls of its public methods and events
    of the child process. *)
Inductive input : Type :=
| StartExtensionHostProcess
| Forked (port : value)
| PostMessage (msg : value)
| ChildMessage (msg : value)
| ChildError (err : value)
| ChildExit (code signal : value)
| Terminate.

(** The child is forked only by [startExtensionHostProcess], and its
    listeners exist only once it has been forked. *)
Definition step (env : Environment) (i : input) (s : state)
  : state * list effect :=
  match i with
  | StartExtensionHostProcess => startExtensionHostProcess env s
  | Forked port =>
      match initializeExtensionHostProcess s with
      | Some _ => forkExtensionHost port s
      | None => (s, [])
      end
  | PostMessage msg => postMessage msg s
  | ChildMessage msg =>
      if extensionHostProcessHandle s then on_message env msg s else (s, [])
  | ChildError err =>
      if extensionHostProcessHandle s then onError env err s else (s, [])
  | ChildExit code signal =>
      if extensionHostProcessHandle s then onExit code signal s else (s, [])
  | Terminate => terminate s
  end.

Fixpoint run (env : Environment) (ins : list input) (s : state)
  : state * list effect :=
  match ins with
  | [] => (s, [])
  | i :: ins' =>
      let '(s1, out1) := step env i s in
      let '(s2, out2) := run env ins' s1 in
      (s2, out1 ++ out2)
  end.

(** The payloads the child process receives, in order. *)
Definition sent (out : list effect) : list value :=
  omap (fun e => match e with Send m => Some m | _ => None end) out.

(** The messages handed to the application callback, in order. *)
Definition delivered (out : list effect) : list value :=
  omap (fun e => match e with Callback m => Some m | _ => None end) out.

(** The notifications shown to the user, in order. *)
Definition shown (out : list effect) : list (Severity * string * list Action) :=
  omap (fun e => match e with Show sv m a => Some (sv, m, a) | _ => None end) out.

(** The handshake has not completed: the host is not ready and the promise,
    if there is one, is pending. *)
Definition awaiting (s : state) : Prop :=
  extensionHostProcessReady s = false /\
  initializeExtensionHostProcess s <> Some Fulfilled.

(** A production build outside extension development. *)
Definition sample_env : Environment :=
  {| isBuilt := true;
     extensionDevelopmentPath := None;
     extensionTestsPath := None;
     debugBreak := false;
     initPayload := "{init}";
     toErrorMessage := fun v => match v with VStr s => s | _ => "error" end |}.

End Thread.

(** ** The local terminal backend (localTerminalBackend.ts) *)
Module Terminal.
Import Js.

(** [TerminalStorageKeys], of which the backend uses two. *)
Inductive StorageKey : Type := TerminalBufferState | TerminalLayoutInfo.

#[global] Instance StorageKey_eq_dec : EqDecision StorageKey.
Proof. solve_decision. Defined.

#[global] Instance StorageKey_countable : Countable StorageKey.
Proof.
  refine (inj_countable'
            (fun k => match k with
                      | TerminalBufferState => false
                      | TerminalLayoutInfo => true
                      end)
            (fun b : bool => if b then TerminalLayoutInfo else TerminalBufferState)
            _).
  intros []; reflexivity.
Defined.

(** A [LocalPty] handle, as [createInstance(LocalPty, id, shouldPersist)]
    makes it. *)
Record LocalPty : Type := { pty_id : Z; pty_shouldPersist : bool }.

(** The handlers of a [LocalPty] the backend calls. *)
Inductive handler_call : Type :=
| handleData (event : value)
| handleDidChangeProperty (property : value)
| handleExit (event : value)
| handleReady (event : value)
| handleReplay (event : value)
| handleOrphanQuestion.

Inductive emitter : Type :=
| OnPtyHostUnresponsive | OnPtyHostResponsive | OnPtyHostRestart.

(** What the backend does to its collaborators. *)
Inductive effect : Type :=
| LogWarn (message : string) (args : list value)
| LogInfo (message : string) (args : list value)
| LogError (message : string)
| LogTrace (message : string)
| PtyCall (pty : LocalPty) (call : handler_call)
| Fire (e : emitter)
| NotificationPrompt (message : string) (choices : list string)
| NotificationClose (handle : nat)
| ApplyToProcessEnvironment (env : value)
| PtyCreateProcess (shellLaunchConfig : value) (cwd : string) (env : value)
    (shouldPersist : bool)
| PtyAttachToProcess (id : Z)
| PtyReviveTerminalProcesses (state : list value) (locale : string)
| PtySetTerminalLayoutInfo (args : value)
| PtyGetTerminalLayoutInfo (workspaceId : string)
| PtyAcceptDetachInstanceReply (requestId persistentProcessId : Z).

(** The injected services, as far as the backend consults them.  The answer
    of a collaborator is taken as a function of the arguments of the call; a
    remote call can be rejected. *)
Record Services : Type := {
  Resolver : Type;                       (* VariableResolver | undefined *)
  JSON_parse : string -> result value;
  workspaceId : string;
  getLastActiveWorkspaceRoot : option string;
  getWorkspaceFolder : string -> option string;
  profileEnvironment : result value;     (* _terminalProfileResolverService *)
  createVariableResolver : option string -> value -> Resolver;
  isWindows : bool;
  isMacintosh : bool;
  configValue : string -> value;         (* _configurationService.getValue *)
  detectLocale : value;                  (* the DetectLocale setting *)
  productVersion : string;
  shellEnv : result value;               (* _shellEnvironmentService.getShellEnv *)
  ptyEnvironment : result value;         (* _localPtyService.getEnvironment *)
  createTerminalEnvironment :
    value -> value -> Resolver -> string -> value -> value -> result value;
  applyToProcessEnvironment : value -> Resolver -> result value;
  locale : string;
  ptyCreateProcess : value -> string -> value -> bool -> result Z;
  ptyAttachToProcess : Z -> result unit;
  ptyReviveTerminalProcesses : list value -> string -> result unit;
  ptySetTerminalLayoutInfo : value -> result unit;
  ptyGetTerminalLayoutInfo : string -> result value;
  ptyAcceptDetachInstanceReply : Z -> Z -> result unit
}.

(** The fields of [LocalTerminalBackend], the notification handle its
    constructor closes over, and the workspace-scoped storage it reads and
    writes. *)
Record state : Type := {
  _ptys : gmap Z LocalPty;
  _isPtyHostUnresponsive : bool;
  unresponsiveNotification : option nat;
  storage : gmap StorageKey string
}.

Definition set_ptys (m : gmap Z LocalPty) (s : state) : state :=
  {| _ptys := m;
     _isPtyHostUnresponsive := _isPtyHostUnresponsive s;
     unresponsiveNotification := unresponsiveNotification s;
     storage := storage s |}.

Definition set_health (b : bool) (n : option nat) (s : state) : state :=
  {| _ptys := _ptys s;
     _isPtyHostUnresponsive := b;
     unresponsiveNotification := n;
     storage := storage s |}.

Definition set_storage (m : gmap StorageKey string) (s : state) : state :=
  {| _ptys := _ptys s;
     _isPtyHostUnresponsive := _isPtyHostUnresponsive s;
     unresponsiveNotification := unresponsiveNotification s;
     storage := m |}.

Definition initial : state :=
  {| _ptys := ∅;
     _isPtyHostUnresponsive := false;
     unresponsiveNotification := None;
     storage := ∅ |}.

(** *** A monad for the methods: fields, exceptions, effects *)

Definition M (A : Type) : Type := state -> result A * state * list effect.

#[global] Instance M_ret : MRet M := fun A a s => (Ok a, s, []).

#[global] Instance M_bind : MBind M := fun A B k m s =>
  match m s with
  | (Ok a, s1, out1) => let '(r, s2, out2) := k a s1 in (r, s2, out1 ++ out2)
  | (Throw e, s1, out1) => (Throw e, s1, out1)
  end.

Definition emit (e : effect) : M unit := fun s => (Ok (), s, [e]).
Definition lift {A} (r : result A) : M A := fun s => (r, s, []).
Definition gets {A} (f : state -> A) : M A := fun s => (Ok (f s), s, []).
Definition modify (f : state -> state) : M unit := fun s => (Ok (), f s, []).

(** A remote call: the request goes out, then its outcome is awaited. *)
Definition call {A} (request : effect) (outcome : result A) : M A :=
  emit request;; lift outcome.

(** [try { body } catch { handler }] *)
Definition try_catch {A} (body : M A) (handler : M A) : M A := fun s =>
  match body s with
  | (Ok a, s1, out1) => (Ok a, s1, out1)
  | (Throw _, s1, out1) => let '(r, s2, out2) := handler s1 in (r, s2, out1 ++ out2)
  end.

(** How a block ends: by falling through, or by a [return]. *)
Inductive completion : Type := Normal | Return.

(** [_storageService.get] and [_storageService.remove] *)
Definition storage_get (k : StorageKey) : M (option string) :=
  gets (fun s => storage s !! k).
Definition storage_remove (k : StorageKey) : M unit :=
  modify (fun s => set_storage (delete k (storage s)) s).
Definition storage_store (k : StorageKey) (v : string) : M unit :=
  modify (fun s => set_storage (<[k:=v]> (storage s)) s).

(** [if (str)] for an optional string *)
Definition nonempty (o : option string) : option string :=
  match o with
  | Some s => if String.eqb s "" then None else Some s
  | None => None
  end.

(** *** The session registry *)

Inductive pty_event : Type :=
| ProcessData (id : Z) (event : value)
| DidChangeProperty (id : Z) (property : value)
| ProcessExit (id : Z) (event : value)
| ProcessReady (id : Z) (event : value)
| ProcessReplay (id : Z) (event : value)
| ProcessOrphanQuestion (id : Z).

Definition event_id (e : pty_event) : Z :=
  match e with
  | ProcessData id _ | DidChangeProperty id _ | ProcessExit id _
  | ProcessReady id _ | ProcessReplay id _ | ProcessOrphanQuestion id => id
  end.

(** The handler each listener of the constructor calls on the handle. *)
Definition event_call (e : pty_event) : handler_call :=
  match e with
  | ProcessData _ ev => handleData ev
  | DidChangeProperty _ p => handleDidChangeProperty p
  | ProcessExit _ ev => handleExit ev
  | ProcessReady _ ev => handleReady ev
  | ProcessReplay _ ev => handleReplay ev
  | ProcessOrphanQuestion _ => handleOrphanQuestion
  end.

Definition is_exit (e : pty_event) : bool :=
  match e with ProcessExit _ _ => true | _ => false end.

(** [this._ptys.get(id)?.handler(...)] *)
Definition dispatch (id : Z) (c : handler_call) : M unit :=
  pty ← gets (fun s => _ptys s !! id);
  match pty with
  | Some p => emit (PtyCall p c)
  | None => mret ()
  end.

(** The listeners on the pty service's process events. *)
Definition on_pty_event (e : pty_event) : M unit :=
  match e with
  | ProcessExit id ev =>
      pty ← gets (fun s => _ptys s !! id);
      match pty with
      | Some p =>
          emit (PtyCall p (handleExit ev));;
          modify (fun s => set_ptys (delete id (_ptys s)) s)
      | None => mret ()
      end
  | _ => dispatch (event_id e) (event_call e)
  end.

Fixpoint on_pty_events (es : list pty_event) : M unit :=
  match es with
  | [] => mret ()
  | e :: es' => on_pty_event e;; on_pty_events es'
  end.

Definition createProcess (svc : Services)
    (shellLaunchConfig : value) (cwd : string) (env : value)
    (shouldPersist : bool) : M LocalPty :=
  _ ← lift (shellEnv svc);
  emit (LogInfo "env" [env]);;
  id ← call (PtyCreateProcess shellLaunchConfig cwd env shouldPersist)
            (ptyCreateProcess svc shellLaunchConfig cwd env shouldPersist);
  let pty := {| pty_id := id; pty_shouldPersist := shouldPersist |} in
  modify (fun s => set_ptys (<[id:=pty]> (_ptys s)) s);;
  mret pty.


Definition detach_warning : string :=
  "Cannot attach to feature terminals, custom pty terminals, or those without a persistentProcessId".

(** [acceptDetachInstanceReply]; [!persistentProcessId] holds of undefined
    and of 0. *)
Definition acceptDetachInstanceReply (svc : Services) (requestId : Z)
    (persistentProcessId : option Z) : M unit :=
  match persistentProcessId with
  | Some p =>
      if bool_decide (p = 0%Z) then emit (LogWarn detach_warning [])
      else
        call (PtyAcceptDetachInstanceReply requestId p)
             (ptyAcceptDetachInstanceReply svc requestId p)
  | None => emit (LogWarn detach_warning [])
  end.

(** *** The pty host health listeners *)

Inductive host_signal : Type :=
| PtyHostExit
| PtyHostStart
| PtyHostUnresponsive (handle : nat)  (* the handle [prompt] answers with *)
| PtyHostResponsive.

Definition unresponsive_message : string :=
  "The connection to the terminal's pty host process is unresponsive, the terminals may stop working.".

(** [unresponsiveNotification?.close()] *)
Definition close_notification : M unit :=
  n ← gets unresponsiveNotification;
  match n with
  | Some h => emit (NotificationClose h)
  | None => mret ()
  end.

Definition on_host_signal (sig : host_signal) : M unit :=
  match sig with
  | PtyHostExit =>
      emit (LogError "The terminal's pty host process exited, the connection to all terminal processes was lost")
  | PtyHostStart =>
      emit (LogInfo "ptyHost restarted" []);;
      emit (Fire OnPtyHostRestart);;
      close_notification;;
      modify (set_health false None)
  | PtyHostUnresponsive h =>
      emit (NotificationPrompt unresponsive_message ["Restart pty host"]);;
      modify (fun s => set_health true (Some h) s);;
      emit (Fire OnPtyHostUnresponsive)
  | PtyHostResponsive =>
      unresponsive ← gets _isPtyHostUnresponsive;
      if negb unresponsive then mret ()
      else
        emit (LogInfo "The pty host became responsive again" []);;
        close_notification;;
        modify (set_health false None);;
        emit (Fire OnPtyHostResponsive)
  end.

Fixpoint on_host_signals (sigs : list host_signal) : M unit :=
  match sigs with
  | [] => mret ()
  | sig :: sigs' => on_host_signal sig;; on_host_signals sigs'
  end.

(** The flag is up exactly while a notification is open. *)
Definition health_consistent (s : state) : Prop :=
  _isPtyHostUnresponsive s = true <-> is_Some (unresponsiveNotification s).

(** *** Persistence and revival *)

Definition setTerminalLayoutInfo (svc : Services) (args : value)
    (serialized : string) : M unit :=
  call (PtySetTerminalLayoutInfo args) (ptySetTerminalLayoutInfo svc args);;
  storage_store TerminalLayoutInfo serialized.

Definition platformKey (svc : Services) : string :=
  if isWindows svc then "windows"
  else if isMacintosh svc then "osx" else "linux".

Definition _resolveEnvironmentForRevive (svc : Services)
    (variableResolver : Resolver svc) (shellLaunchConfig : value) : M value :=
  let envFromConfigValue :=
    configValue svc ("terminal.integrated.env." +:+ platformKey svc) in
  useShellEnvironment ← lift (get_prop shellLaunchConfig "useShellEnvironment");
  baseEnv ← lift (if truthy useShellEnvironment
                  then shellEnv svc else ptyEnvironment svc);
  env ← lift (createTerminalEnvironment svc shellLaunchConfig
                envFromConfigValue variableResolver (productVersion svc)
                (detectLocale svc) baseEnv);
  strictEnv ← lift (get_prop shellLaunchConfig "strictEnv");
  if truthy strictEnv then mret env
  else
    hideFromUser ← lift (get_prop shellLaunchConfig "hideFromUser");
    if truthy hideFromUser then mret env
    else
      (* the collection mutates [env] in place *)
      call (ApplyToProcessEnvironment env)
           (applyToProcessEnvironment svc env variableResolver).

(** The object [state] after [state.processLaunchOptions] was mutated in
    place to [plo]: the same object, seen through the same reference. *)
Definition with_prop (state : value) (k : string) (plo : value) : value :=
  match state with
  | VObj p => VObj (<[k:=plo]> p)
  | VArr l p => VArr l (<[k:=plo]> p)
  | _ => state
  end.

(** [for (const state of parsed) { ... }]: the entries after the loop. *)
Fixpoint revive_loop (svc : Services) (variableResolver : Resolver svc)
    (parsed : list value) : M (list value) :=
  match parsed with
  | [] => mret []
  | state :: rest =>
      plo ← lift (get_prop state "processLaunchOptions");
      before ← lift (get_prop plo "env");
      emit (LogInfo "env before" [before]);;
      shellLaunchConfig ← lift (get_prop state "shellLaunchConfig");
      freshEnv ← _resolveEnvironmentForRevive svc variableResolver shellLaunchConfig;
      emit (LogInfo "fresh env" [freshEnv]);;
      plo ← lift (get_prop state "processLaunchOptions");
      plo' ← lift (set_prop plo "env" freshEnv);
      let state' := with_prop state "processLaunchOptions" plo' in
      plo ← lift (get_prop state' "processLaunchOptions");
      after ← lift (get_prop plo "env");
      emit (LogInfo "env after" [after]);;
      rest' ← revive_loop svc variableResolver rest;
      mret (state' :: rest')
  end.

(** The elements of an array value. *)
Definition elements (v : value) : list value :=
  match v with VArr l _ => l | _ => [] end.

(** [!('version' in p) || !('state' in p) || !Array.isArray(p.state)] *)
Definition wrong_format (parsedUnknown : value) : M bool :=
  hasVersion ← lift (has_prop "version" parsedUnknown);
  if negb hasVersion then mret true
  else
    hasState ← lift (has_prop "state" parsedUnknown);
    if negb hasState then mret true
    else
      state ← lift (get_prop parsedUnknown "state");
      mret (negb (isArray state)).

(** The end of the [try] block, once the pty host has revived the processes:
    the serialized state is removed and a stored layout is sent back. *)
Definition finish_revival (svc : Services) : M completion :=
  storage_remove TerminalBufferState;;
  layoutInfo ← storage_get TerminalLayoutInfo;
  match nonempty layoutInfo with
  | Some layoutInfo =>
      args ← lift (JSON_parse svc layoutInfo);
      call (PtySetTerminalLayoutInfo args) (ptySetTerminalLayoutInfo svc args);;
      storage_remove TerminalLayoutInfo;;
      mret Normal
  | None => mret Normal
  end.

(** The [try] block from "Create variable resolver" on. *)
Definition revive_entries (svc : Services) (parsed : list value) : M completion :=
  let lastActiveWorkspace :=
    getLastActiveWorkspaceRoot svc ≫= getWorkspaceFolder svc in
  profileEnv ← lift (profileEnvironment svc);
  let variableResolver :=
    createVariableResolver svc lastActiveWorkspace profileEnv in
  parsed' ← revive_loop svc variableResolver parsed;
  call (PtyReviveTerminalProcesses parsed' (locale svc))
       (ptyReviveTerminalProcesses svc parsed' (locale svc));;
  finish_revival svc.

Definition wrong_format_warning : string :=
  "Could not revive serialized processes, wrong format".
Definition wrong_version_warning : string :=
  "Could not revive serialized processes, wrong version".

(** The body of the [try] of [getTerminalLayoutInfo].  The version that the
    second warning interpolates into its text is kept as an argument. *)
Definition revive (svc : Services) (serializedState : string) : M completion :=
  parsedUnknown ← lift (JSON_parse svc serializedState);
  wrong ← wrong_format parsedUnknown;
  if (wrong : bool) then
    emit (LogWarn wrong_format_warning [parsedUnknown]);;
    mret Return
  else
    version ← lift (get_prop parsedUnknown "version");
    if negb (is_number 1 version) then
      emit (LogWarn wrong_version_warning [version; parsedUnknown]);;
      mret Return
    else
      state ← lift (get_prop parsedUnknown "state");
      revive_entries svc (elements state).

Definition getTerminalLayoutInfo (svc : Services) : M value :=
  serializedState ← storage_get TerminalBufferState;
  c ← match nonempty serializedState with
      | Some serializedState =>
          try_catch (revive svc serializedState) (mret Normal)
      | None => mret Normal
      end;
  match c with
  | Return => mret VUndefined
  | Normal =>
      call (PtyGetTerminalLayoutInfo (workspaceId svc))
           (ptyGetTerminalLayoutInfo svc (workspaceId svc))
  end.

(** *** Views of a run and of an effect list *)

Definition outcome {A} (m : M A) (s : state) : result A := (m s).1.1.
Definition final {A} (m : M A) (s : state) : state := (m s).1.2.
Definition effects {A} (m : M A) (s : state) : list effect := (m s).2.

Definition detach_calls (out : list effect) : list (Z * Z) :=
  omap (fun e => match e with
                 | PtyAcceptDetachInstanceReply r p => Some (r, p)
                 | _ => None
                 end) out.


Definition warnings (out : list effect) : list (string * list value) :=
  omap (fun e => match e with LogWarn m a => Some (m, a) | _ => None end) out.

Definition revive_calls (out : list effect) : list (list value * string) :=
  omap (fun e => match e with
                 | PtyReviveTerminalProcesses st l => Some (st, l)
                 | _ => None
                 end) out.

Definition layout_queries (out : list effect) : list string :=
  omap (fun e => match e with PtyGetTerminalLayoutInfo w => Some w | _ => None end)
       out.

Definition applications (out : list effect) : list value :=
  omap (fun e => match e with ApplyToProcessEnvironment v => Some v | _ => None end)
       out.

Definition pty_calls (out : list effect) : list (LocalPty * handler_call) :=
  omap (fun e => match e with PtyCall p c => Some (p, c) | _ => None end) out.

(** *** The vocabulary of the properties *)

Definition is_object (v : value) : bool :=
  match v with VObj _ | VArr _ _ => true | _ => false end.

(** The field [k] of a parsed value, if it has one. *)
Definition field (v : value) (k : string) : option value :=
  match v with VObj p | VArr _ p => p !! k | _ => None end.

(** The parsed value is missing 'version', or missing 'state', or its
    'state' is not an array, or its 'version' is not 1. *)
Definition fails_validation (v : value) : Prop :=
  field v "version" = None
  \/ field v "state" = None
  \/ (exists state, field v "state" = Some state /\ isArray state = false)
  \/ (exists version, field v "version" = Some version
                      /\ is_number 1 version = false).

(** The envelope [{version: 1, state: [...]}]. *)
Definition valid_schema (v : value) : bool :=
  match field v "version", field v "state" with
  | Some version, Some state => isArray state && is_number 1 version
  | _, _ => false
  end.

(** The option [k] of a shell-launch config is set. *)
Definition flag_set (shellLaunchConfig : value) (k : string) : bool :=
  match get_prop shellLaunchConfig k with
  | Ok v => truthy v
  | Throw _ => false
  end.

(** The shell-launch config has neither [strictEnv] nor [hideFromUser] set. *)
Definition collection_applies (shellLaunchConfig : value) : bool :=
  negb (flag_set shellLaunchConfig "strictEnv")
  && negb (flag_set shellLaunchConfig "hideFromUser").

(** The entry [state'] handed to the pty host for the stored entry [state],
    with [applied] the environments the merged collection was applied to
    while resolving it: the environment of [state'] is created afresh from
    the entry's shell-launch config, the platform's configured overrides, the
    resolver and a base environment, and the merged collection is applied to
    it exactly when [collection_applies]. *)
Definition revived (svc : Services) (variableResolver : Resolver svc)
    (state state' : value) (applied : list value) : Prop :=
  exists shellLaunchConfig plo baseEnv env freshEnv plo',
    get_prop state "shellLaunchConfig" = Ok shellLaunchConfig
    /\ get_prop state "processLaunchOptions" = Ok plo
    /\ (if flag_set shellLaunchConfig "useShellEnvironment"
        then shellEnv svc else ptyEnvironment svc) = Ok baseEnv
    /\ createTerminalEnvironment svc shellLaunchConfig
         (configValue svc ("terminal.integrated.env." +:+ platformKey svc))
         variableResolver (productVersion svc) (detectLocale svc) baseEnv
       = Ok env
    /\ (if collection_applies shellLaunchConfig
        then applyToProcessEnvironment svc env variableResolver = Ok freshEnv
             /\ applied = [env]
        else freshEnv = env /\ applied = [])
    /\ set_prop plo "env" freshEnv = Ok plo'
    /\ state' = with_prop state "processLaunchOptions" plo'
    /\ get_prop state' "processLaunchOptions" = Ok plo'
    /\ get_prop plo' "env" = Ok freshEnv.

(** The effects of the loop over the entries: logging and applications of
    the merged collection. *)
Definition loop_effect (e : effect) : Prop :=
  match e with
  | LogInfo _ _ | ApplyToProcessEnvironment _ => True
  | _ => False
  end.

Definition set_layout_calls (out : list effect) : list value :=
  omap (fun e => match e with PtySetTerminalLayoutInfo a => Some a | _ => None end)
       out.

(** *** Sample collaborators *)

Definition quoted (s : string) : string :=
  let dq := Ascii.Ascii false true false false false true false false in
  String dq (s +:+ String dq "").

(** [{"version":1,"state":[{"shellLaunchConfig":{},
      "processLaunchOptions":{"env":{"OLD":"1"}}}]}] *)
Definition sample_blob : string :=
  "{" +:+ quoted "version" +:+ ":1," +:+ quoted "state" +:+ ":[{"
  +:+ quoted "shellLaunchConfig" +:+ ":{},"
  +:+ quoted "processLaunchOptions" +:+ ":{" +:+ quoted "env" +:+ ":{"
  +:+ quoted "OLD" +:+ ":" +:+ quoted "1" +:+ "}}}]}".

Definition sample_entry : value :=
  obj [("shellLaunchConfig", obj []);
       ("processLaunchOptions", obj [("env", obj [("OLD", VStr "1")])])].

Definition sample_parsed : value :=
  obj [("version", VNum 1); ("state", arr [sample_entry])].

(** [{"version":2,"state":[]}] *)
Definition version2_blob : string :=
  "{" +:+ quoted "version" +:+ ":2," +:+ quoted "state" +:+ ":[]}".

(** [{"workspaceId":"ws","tabs":[]}] *)
Definition sample_layout : string :=
  "{" +:+ quoted "workspaceId" +:+ ":" +:+ quoted "ws" +:+ ","
  +:+ quoted "tabs" +:+ ":[]}".

(** [JSON.parse] on the texts the examples store. *)
Definition sample_parse (text : string) : result value :=
  if String.eqb text sample_blob then Ok sample_parsed
  else if String.eqb text version2_blob
       then Ok (obj [("version", VNum 2); ("state", arr [])])
  else if String.eqb text sample_layout
       then Ok (obj [("workspaceId", VStr "ws"); ("tabs", arr [])])
  else if String.eqb text "null" then Ok VNull
  else if String.eqb text "true" then Ok (VBool true)
  else Throw SyntaxError.

(** Collaborators that always answer, but for the pty host's
    [setTerminalLayoutInfo], whose outcome is [setLayout].  The live
    environment has the one variable NEW. *)
Definition sample_services (setLayout : result unit) : Services :=
  {| Resolver := unit;
     JSON_parse := sample_parse;
     workspaceId := "ws";
     getLastActiveWorkspaceRoot := None;
     getWorkspaceFolder := fun _ => None;
     profileEnvironment := Ok (obj []);
     createVariableResolver := fun _ _ => ();
     isWindows := false;
     isMacintosh := false;
     configValue := fun _ => VUndefined;
     detectLocale := VStr "auto";
     productVersion := "1.0.0";
     shellEnv := Ok (obj []);
     ptyEnvironment := Ok (obj []);
     createTerminalEnvironment := fun _ _ _ _ _ _ => Ok (obj [("NEW", VStr "2")]);
     applyToProcessEnvironment := fun env _ => Ok env;
     locale := "en-US";
     ptyCreateProcess := fun _ _ _ _ => Ok 1%Z;
     ptyAttachToProcess := fun _ => Ok ();
     ptyReviveTerminalProcesses := fun _ _ => Ok ();
     ptySetTerminalLayoutInfo := fun _ => setLayout;
     ptyGetTerminalLayoutInfo := fun _ => Ok VUndefined;
     ptyAcceptDetachInstanceReply := fun _ _ => Ok () |}.

(** A backend whose storage holds [blob] as the serialized state and
    [layout], if any, as the layout. *)
Definition stored (blob : string) (layout : option string) : state :=
  set_storage
    (match layout with
     | Some l => <[TerminalLayoutInfo:=l]> {[TerminalBufferState := blob]}
     | None => {[TerminalBufferState := blob]}
     end)
    initial.

End Terminal.

(** ** The supervisor: vocabulary for its runs *)
Module ThreadExt.
Import Js Thread.

(** The messages a sequence of inputs posts, in order. *)
Definition posts (ins : list input) : list value :=
  omap (fun i => match i with PostMessage m => Some m | _ => None end) ins.

(** An input that neither starts the supervisor (again) nor completes the
    handshake. *)
Definition before_handshake (i : input) : Prop :=
  match i with
  | StartExtensionHostProcess => False
  | ChildMessage msg => is_string "initialized" msg = false
  | _ => True
  end.

(** An input other than the child's 'initialized'. *)
Definition not_initialized (i : input) : Prop :=
  match i with
  | ChildMessage msg => is_string "initialized" msg = false
  | _ => True
  end.

(** The three flags the constructor derives from the environment. *)
Definition flags (s : state) : bool * bool * bool :=
  (isExtensionDevelopmentHost s, isExtensionDevelopmentTestFromCli s,
   isExtensionDevelopmentDebugging s).

(** A list of texts without its adjacent repetitions, [last] being the text
    that came before the list. *)
Fixpoint dedup_adjacent (last : option string) (texts : list string)
  : list string :=
  match texts with
  | [] => []
  | t :: texts' =>
      if bool_decide (last = Some t) then dedup_adjacent last texts'
      else t :: dedup_adjacent (Some t) texts'
  end.

(** The notification [onError] shows for an error text. *)
Definition error_notification (text : string)
  : Severity * string * list Action :=
  (SevError, "Error from the extension host: " +:+ text, []).


End ThreadExt.

(** ** The terminal backend: further methods and vocabulary *)
Module TerminalExt.
Import Js Terminal.

(** *** The registry *)

(** Every handle is registered under its own id, as [createProcess] and
    [attachToProcess] register it. *)
Definition well_keyed (m : gmap Z LocalPty) : Prop :=
  forall id p, m !! id = Some p -> pty_id p = id.

(** The handler calls made on handles of session [id], in order. *)
Definition calls_of (id : Z) (out : list effect) : list handler_call :=
  omap (fun e => match e with
                 | PtyCall p c => if bool_decide (pty_id p = id) then Some c else None
                 | _ => None
                 end) out.

(** The events for session [id], in order. *)
Definition events_of (id : Z) (es : list pty_event) : list pty_event :=
  filter (fun e => event_id e = id) es.

(** A stream up to its first exit event, that one included. *)
Fixpoint until_exit (es : list pty_event) : list pty_event :=
  match es with
  | [] => []
  | e :: es' => if is_exit e then [e] else e :: until_exit es'
  end.

(** Session [id] exits somewhere in the stream. *)
Definition exits (id : Z) (es : list pty_event) : bool :=
  existsb (fun e => is_exit e && bool_decide (event_id e = id)) es.

(** *** The health notifications *)

(** The handles the notification service answered the prompts with. *)
Definition prompted (sigs : list host_signal) : list nat :=
  omap (fun sig => match sig with PtyHostUnresponsive h => Some h | _ => None end)
       sigs.

(** The handles that were closed. *)
Definition closed (out : list effect) : list nat :=
  omap (fun e => match e with NotificationClose h => Some h | _ => None end) out.

(** *** [setTerminalLayoutInfo], from its argument *)

(** [layoutInfo ? layoutInfo.tabs : []] *)
Definition layout_tabs (layoutInfo : value) : value :=
  if truthy layoutInfo then
    match get_prop layoutInfo "tabs" with
    | Ok tabs => tabs
    | Throw _ => VUndefined
    end
  else arr [].

(** [{ workspaceId: this._getWorkspaceId(), tabs: ... }] *)
Definition layout_args (svc : Services) (layoutInfo : value) : value :=
  obj [("workspaceId", VStr (workspaceId svc));
       ("tabs", layout_tabs layoutInfo)].

(** The whole method; [stringify] is [JSON.stringify]. *)
Definition setTerminalLayoutInfo_of (stringify : value -> string)
    (svc : Services) (layoutInfo : value) : M unit :=
  let args := layout_args svc layoutInfo in
  setTerminalLayoutInfo svc args (stringify args).

(** *** The listener on [onPtyHostRequestResolveVariables] *)

Record ResolveRequest : Type := {
  req_workspaceId : string;
  req_requestId : Z;
  req_originalText : list string
}.

(** [Promise.all(texts.map(t => resolveAsync(root, t)))]: all the
    resolutions, or a rejection when one of them is rejected (which one
    surfaces depends on timing and is not kept). *)
Fixpoint resolve_all (resolve : string -> result string) (texts : list string)
  : option (list string) :=
  match texts with
  | [] => Some []
  | t :: texts' =>
      match resolve t, resolve_all resolve texts' with
      | Ok r, Some rs => Some (r :: rs)
      | _, _ => None
      end
  end.

(** The listener: [None] when its promise is rejected, otherwise the answers
    it gave to the pty host through [acceptPtyHostResolvedVariables], each a
    request id with the resolved texts.  [resolveAsync] is the configuration
    resolver's, [activeWorkspaceRootUri] the history service's last active
    file root. *)
Definition onPtyHostRequestResolveVariables (svc : Services)
    (resolveAsync : option string -> string -> result string)
    (activeWorkspaceRootUri : option string) (e : ResolveRequest)
  : option (list (Z * list string)) :=
  if negb (String.eqb (req_workspaceId e) (workspaceId svc)) then Some []
  else
    let lastActiveWorkspaceRoot :=
      activeWorkspaceRootUri ≫= getWorkspaceFolder svc in
    match resolve_all (resolveAsync lastActiveWorkspaceRoot)
            (req_originalText e) with
    | Some result => Some [(req_requestId e, result)]
    | None => None
    end.

(** *** More sample collaborators *)

(** [{"version":1,"state":[null]}] *)
Definition null_entry_blob : string :=
  "{" +:+ quoted "version" +:+ ":1," +:+ quoted "state" +:+ ":[null]}".

Definition extended_parse (text : string) : result value :=
  if String.eqb text null_entry_blob
  then Ok (obj [("version", VNum 1); ("state", arr [VNull])])
  else sample_parse text.

(** The sample collaborators with [extended_parse] and a pty host whose
    [reviveTerminalProcesses] has the outcome [revive]. *)
Definition services_with (revive : result unit) : Services :=
  let svc := sample_services (Ok ()) in
  {| Resolver := Resolver svc;
     JSON_parse := extended_parse;
     workspaceId := workspaceId svc;
     getLastActiveWorkspaceRoot := getLastActiveWorkspaceRoot svc;
     getWorkspaceFolder := getWorkspaceFolder svc;
     profileEnvironment := profileEnvironment svc;
     createVariableResolver := createVariableResolver svc;
     isWindows := isWindows svc;
     isMacintosh := isMacintosh svc;
     configValue := configValue svc;
     detectLocale := detectLocale svc;
     productVersion := productVersion svc;
     shellEnv := shellEnv svc;
     ptyEnvironment := ptyEnvironment svc;
     createTerminalEnvironment := createTerminalEnvironment svc;
     applyToProcessEnvironment := applyToProcessEnvironment svc;
     locale := locale svc;
     ptyCreateProcess := ptyCreateProcess svc;
     ptyAttachToProcess := ptyAttachToProcess svc;
     ptyReviveTerminalProcesses := fun _ _ => revive;
     ptySetTerminalLayoutInfo := ptySetTerminalLayoutInfo svc;
     ptyGetTerminalLayoutInfo := ptyGetTerminalLayoutInfo svc;
     ptyAcceptDetachInstanceReply := ptyAcceptDetachInstanceReply svc |}.

End TerminalExt.

(* ================================================================== *)
(** * Part II: theorems *)
(* ================================================================== *)

(** ** The supervisor *)
Module ThreadFacts.
Import Js Thread.

Lemma sent_app (o1 o2 : list effect) : sent (o1 ++ o2) = sent o1 ++ sent o2.
Proof. apply omap_app. Qed.

Lemma delivered_app (o1 o2 : list effect) :
  delivered (o1 ++ o2) = delivered o1 ++ delivered o2.
Proof. apply omap_app. Qed.

Lemma shown_app (o1 o2 : list effect) : shown (o1 ++ o2) = shown o1 ++ shown o2.
Proof. apply omap_app. Qed.

Lemma sent_Send (l : list value) : sent (Send <$> l) = l.
Proof. induction l as [|m l IH]; [reflexivity|]. cbn. unfold sent in IH. by rewrite IH. Qed.

Lemma run_app env (i1 i2 : list input) s :
  run env (i1 ++ i2) s =
  let '(s1, o1) := run env i1 s in
  let '(s2, o2) := run env i2 s1 in (s2, o1 ++ o2).
Proof.
  revert s. induction i1 as [|i i1 IH]; intros s; simpl.
  - by destruct (run env i2 s).
  - destruct (step env i s) as [s1 o1]. rewrite IH.
    destruct (run env i1 s1) as [s2 o2], (run env i2 s2) as [s3 o3].
    by rewrite app_assoc.
Qed.

(** While the handshake promise is pending, [postMessage] only registers a
    listener on it, behind those already there. *)
Lemma postMessage_pending msg s ls :
  extensionHostProcessReady s = false ->
  initializeExtensionHostProcess s = Some (Pending ls) ->
  postMessage msg s = (set_promise (Some (Pending (ls ++ [msg]))) s, []).
Proof. intros Hr Hp. unfold postMessage. by rewrite Hr, Hp. Qed.

(** Before [startExtensionHostProcess] there is no promise and the message
    joins [unsentMessages]. *)
Lemma postMessage_unstarted msg s :
  extensionHostProcessReady s = false ->
  initializeExtensionHostProcess s = None ->
  postMessage msg s = (set_unsent (unsentMessages s ++ [msg]) s, []).
Proof. intros Hr Hp. unfold postMessage. by rewrite Hr, Hp. Qed.

Lemma forEach_postMessage_pending l : forall s ls,
  extensionHostProcessReady s = false ->
  initializeExtensionHostProcess s = Some (Pending ls) ->
  forEach_postMessage l s = (set_promise (Some (Pending (ls ++ l))) s, []).
Proof.
  induction l as [|m l IH]; intros s ls Hr Hp; simpl.
  - rewrite app_nil_r. destruct s; simpl in *; by subst.
  - rewrite (postMessage_pending _ _ ls Hr Hp).
    rewrite (IH _ (ls ++ [m])); [|done..].
    by rewrite <- app_assoc.
Qed.

(** The flush on 'initialized': the listeners registered since the start
    go first, the messages queued before the start go last. *)
Lemma on_message_initialized env s ls :
  extensionHostProcessReady s = false ->
  initializeExtensionHostProcess s = Some (Pending ls) ->
  on_message env (VStr "initialized") s =
  (set_promise (Some Fulfilled)
     (set_ready true
        (set_unsent [] (set_promise (Some (Pending (ls ++ unsentMessages s))) s))),
   Send <$> (ls ++ unsentMessages s)).
Proof.
  intros Hr Hp. unfold on_message, onMessaage. simpl.
  by rewrite (forEach_postMessage_pending _ _ ls Hr Hp).
Qed.

Lemma run_posts_unstarted env (l : list value) : forall s,
  extensionHostProcessReady s = false ->
  initializeExtensionHostProcess s = None ->
  run env (PostMessage <$> l) s = (set_unsent (unsentMessages s ++ l) s, []).
Proof.
  induction l as [|m l IH]; intros s Hr Hp; simpl.
  - rewrite app_nil_r. by destruct s.
  - rewrite (postMessage_unstarted _ _ Hr Hp).
    rewrite IH; [|done..]. simpl. by rewrite <- app_assoc.
Qed.

Lemma run_posts_pending env (l : list value) : forall s ls,
  extensionHostProcessReady s = false ->
  initializeExtensionHostProcess s = Some (Pending ls) ->
  run env (PostMessage <$> l) s = (set_promise (Some (Pending (ls ++ l))) s, []).
Proof.
  induction l as [|m l IH]; intros s ls Hr Hp; simpl.
  - rewrite app_nil_r. destruct s; simpl in *; by subst.
  - rewrite (postMessage_pending _ _ ls Hr Hp).
    rewrite (IH _ (ls ++ [m])); [|done..]. by rewrite <- app_assoc.
Qed.

(** The order of delivery in general: with [pre] posted before the start and
    [post] after it, the child receives the initialisation payload, then
    [post], then [pre]; every message exactly once. *)
Lemma run_start_fork env s :
  extensionHostProcessReady s = false ->
  exists s1 o1,
    run env [StartExtensionHostProcess; Forked VUndefined] s = (s1, o1) /\
    sent o1 = [] /\ extensionHostProcessReady s1 = false /\
    initializeExtensionHostProcess s1 = Some (Pending []) /\
    extensionHostProcessHandle s1 = true /\
    unsentMessages s1 = unsentMessages s.
Proof.
  intros Hr. simpl. unfold startExtensionHostProcess, forkExtensionHost.
  destruct (negb (isBuilt env) || _); simpl;
    rewrite andb_false_r; simpl; eexists _, _; by repeat split.
Qed.

Lemma run_handshake env s ls :
  extensionHostProcessReady s = false ->
  initializeExtensionHostProcess s = Some (Pending ls) ->
  extensionHostProcessHandle s = true ->
  sent (run env [ChildMessage (VStr "ready"); ChildMessage (VStr "initialized")]
          s).2
  = VStr (initPayload env) :: ls ++ unsentMessages s.
Proof.
  intros Hr Hp Hh. cbn [run step]. rewrite Hh.
  unfold on_message at 1, onMessaage. cbn [is_string String.eqb Ascii.eqb Bool.eqb].
  cbn [initializeExtensionHost]. rewrite Hh.
  rewrite (on_message_initialized env s ls Hr Hp).
  cbn [snd]. rewrite app_nil_r, !sent_app, sent_Send.
  by destruct (initializeTimer s).
Qed.

(** The order of delivery in general: with [pre] posted before the start and
    [post] after it, the child receives the initialisation payload, then
    [post], then [pre]; every message exactly once. *)
Lemma flush_order env (pre post : list value) :
  sent (run env
          ((PostMessage <$> pre)
           ++ [StartExtensionHostProcess; Forked VUndefined]
           ++ (PostMessage <$> post)
           ++ [ChildMessage (VStr "ready"); ChildMessage (VStr "initialized")])
          (constructor env)).2
  = VStr (initPayload env) :: post ++ pre.
Proof.
  rewrite run_app, run_posts_unstarted by done.
  set (s0 := set_unsent _ (constructor env)).
  destruct (run_start_fork env s0) as (s1 & o1 & E1 & Ho1 & Hr & Hp & Hh & Hu);
    [done|].
  rewrite run_app, E1.
  rewrite run_app, (run_posts_pending _ _ _ [] Hr Hp). cbn [app].
  set (s2 := set_promise _ s1).
  pose proof (run_handshake env s2 post) as H.
  destruct (run env [ChildMessage _; ChildMessage _] s2) as [s3 o3].
  cbn [snd] in *. rewrite sent_app, Ho1, H by done.
  change (unsentMessages s2) with (unsentMessages s1). by rewrite Hu.
Qed.

Lemma postMessage_terminating msg s :
  terminating (postMessage msg s).1 = terminating s.
Proof. unfold postMessage, done_send. by repeat case_match. Qed.

Lemma forEach_postMessage_terminating l : forall s,
  terminating (forEach_postMessage l s).1 = terminating s.
Proof.
  induction l as [|m l IH]; intros s; simpl; [done|].
  pose proof (postMessage_terminating m s) as H1.
  destruct (postMessage m s) as [s1 o1]. specialize (IH s1).
  destruct (forEach_postMessage l s1) as [s2 o2]. simpl in *. congruence.
Qed.

Lemma on_message_terminating env msg s :
  terminating (on_message env msg s).1 = terminating s.
Proof.
  unfold on_message, onMessaage, initializeExtensionHost,
    logExtensionHostMessage, complete.
  pose proof (forEach_postMessage_terminating (unsentMessages s) s) as H.
  destruct (forEach_postMessage (unsentMessages s) s) as [s1 o1].
  by repeat case_match; simplify_eq/=.
Qed.

(** No step other than [terminate] touches [terminating]. *)
Lemma step_terminating env i s :
  i <> Terminate -> terminating (step env i s).1 = terminating s.
Proof.
  intros Hi. destruct i; try done; simpl.
  - unfold startExtensionHostProcess. by destruct (negb _ || _).
  - by case_match.
  - apply postMessage_terminating.
  - case_match; [apply on_message_terminating|done].
  - unfold onError. by repeat case_match.
  - by case_match.
Qed.

(** [terminating] records exactly that [terminate] was called. *)
Lemma run_not_terminating env ins : forall s,
  Terminate ∉ ins -> terminating (run env ins s).1 = terminating s.
Proof.
  induction ins as [|i ins IH]; intros s Hin; simpl; [done|].
  apply not_elem_of_cons in Hin as [Hi Hin].
  pose proof (step_terminating env i s (not_eq_sym Hi)) as Hs.
  destruct (step env i s) as [s1 o1]. specialize (IH s1 Hin).
  destruct (run env ins s1) as [s2 o2]. simpl in *. congruence.
Qed.

(** Until 'initialized' arrives the handshake stays incomplete, and the only
    payloads the child is sent are the supervisor's own: the initialisation
    payload and the terminate message. *)
Lemma step_awaiting env i s :
  awaiting s ->
  (forall msg, i = ChildMessage msg -> is_string "initialized" msg = false) ->
  awaiting (step env i s).1 /\
  forall m, m ∈ sent (step env i s).2 ->
            m = VStr (initPayload env) \/ m = terminate_message.
Proof.
  unfold awaiting. intros [Hr Hp] Hi. destruct i; simpl.
  - unfold startExtensionHostProcess. destruct (negb _ || _); simpl;
      (split; [by split|]); intros m Hm; by apply elem_of_nil in Hm.
  - unfold forkExtensionHost.
    destruct (initializeExtensionHostProcess s) eqn:E; simpl;
      (split; [split; [done|by rewrite ?E]|]);
      intros m Hm; [destruct (_ && _)|]; by apply elem_of_nil in Hm.
  - unfold postMessage, done_send. rewrite Hr.
    destruct (initializeExtensionHostProcess s) as [[ls|]|] eqn:E; simpl;
      try done; (split; [split; [done|by rewrite ?E]|]);
      intros m Hm; by apply elem_of_nil in Hm.
  - destruct (extensionHostProcessHandle s);
      [|split; [by split|]; intros m Hm; by apply elem_of_nil in Hm].
    unfold on_message, onMessaage, initializeExtensionHost,
      logExtensionHostMessage.
    rewrite (Hi msg eq_refl).
    destruct (is_string "ready" msg); simpl.
    { split; [by split|]. intros m Hm. left.
      destruct (initializeTimer s); simpl in Hm;
        by apply list_elem_of_singleton in Hm. }
    destruct (is_log_entry msg); simpl; (split; [by split|]);
      intros m Hm; [|by apply elem_of_nil in Hm].
    destruct (isExtensionDevelopmentTestFromCli s); simpl in Hm;
      [by apply elem_of_nil in Hm|].
    destruct (negb _ || _); by apply elem_of_nil in Hm.
  - destruct (extensionHostProcessHandle s);
      [|split; [by split|]; intros m Hm; by apply elem_of_nil in Hm].
    unfold onError. destruct (bool_decide _); simpl; (split; [by split|]);
      intros m Hm; by apply elem_of_nil in Hm.
  - destruct (extensionHostProcessHandle s);
      [|split; [by split|]; intros m Hm; by apply elem_of_nil in Hm].
    unfold onExit. simpl. split; [by split|]. intros m Hm.
    destruct (terminating s), (isExtensionDevelopmentHost s),
      (isExtensionDevelopmentTestFromCli s); by apply elem_of_nil in Hm.
  - unfold terminate. simpl. split; [by split|]. intros m Hm. right.
    destruct (extensionHostProcessHandle s); simpl in Hm;
      [by apply list_elem_of_singleton in Hm|by apply elem_of_nil in Hm].
Qed.

(** None of the posted messages is sent before 'initialized' has been
    received: whatever was posted, and whatever else happened, the child has
    only been sent the supervisor's own payloads. *)
Lemma nothing_posted_is_sent_before_initialized env ins : forall s,
  awaiting s ->
  Forall (fun i => forall msg, i = ChildMessage msg ->
                               is_string "initialized" msg = false) ins ->
  forall m, m ∈ sent (run env ins s).2 ->
            m = VStr (initPayload env) \/ m = terminate_message.
Proof.
  induction ins as [|i ins IH]; intros s Hs Hall m Hm; simpl in Hm.
  - by apply elem_of_nil in Hm.
  - apply Forall_cons in Hall as [Hi Hall].
    destruct (step_awaiting env i s Hs Hi) as [Hs1 Hout].
    destruct (step env i s) as [s1 o1]. specialize (IH s1 Hs1 Hall).
    destruct (run env ins s1) as [s2 o2]. simpl in *.
    rewrite sent_app in Hm. apply elem_of_app in Hm as [Hm|Hm]; auto.
Qed.

Lemma constructor_awaiting env : awaiting (constructor env).
Proof. by split. Qed.


(** Once the supervisor is started, messages posted before 'initialized'
    reach the child exactly once and in the order of submission. *)
Corollary started_posts_in_order env (post : list value) :
  sent (run env
          ([StartExtensionHostProcess; Forked VUndefined]
           ++ (PostMessage <$> post)
           ++ [ChildMessage (VStr "ready"); ChildMessage (VStr "initialized")])
          (constructor env)).2
  = VStr (initPayload env) :: post.
Proof.
  pose proof (flush_order env [] post) as H. simpl in H.
  by rewrite app_nil_r in H.
Qed.

(** C3 as stated fails: each of two unexpected exits shows the crash
    notification; [onExit] compares nothing with the last reported message. *)
Lemma C3_two_exits_shown_twice :
  shown (run sample_env
           [StartExtensionHostProcess; Forked VUndefined;
            ChildExit (VNum 1) VNull; ChildExit (VNum 1) VNull]
           (constructor sample_env)).2
  = [(SevError, crash_message, [ReloadWindowAction]);
     (SevError, crash_message, [ReloadWindowAction])].
Proof. reflexivity. Qed.

(** C3, amended: an unexpected exit (no [terminate] before, outside
    extension development) shows the crash notification with the reload
    action, at every such exit; the comparison with the last reported message
    is made for the child's 'error' events: an error whose text equals the
    last reported one shows nothing and changes nothing, so two errors of
    identical text in a row show at most one notification. *)
Theorem C3_crash_notification_and_error_dedup env s code signal err1 err2 :
  terminating s = false ->
  isExtensionDevelopmentHost s = false ->
  toErrorMessage env err1 = toErrorMessage env err2 ->
  shown (onExit code signal s).2
    = [(SevError, crash_message, [ReloadWindowAction])]
  /\ (let '(s1, out1) := onError env err1 s in
      onError env err2 s1 = (s1, [])
      /\ length (shown (out1 ++ (onError env err2 s1).2)) <= 1).
Proof.
  intros Ht Hd He. split.
  - unfold onExit. by rewrite Ht, Hd.
  - unfold onError. rewrite <- He.
    destruct (bool_decide (lastExtensionHostError s = _)) eqn:E; simpl.
    + rewrite E. simpl. split; [done|lia].
    + rewrite bool_decide_true by done. simpl. split; [done|lia].
Qed.

Lemma C3_crash_notification_and_error_dedup_witness :
  shown (onExit (VNum 1) VNull (constructor sample_env)).2
    = [(SevError, crash_message, [ReloadWindowAction])]
  /\ (let '(s1, out1) := onError sample_env (VStr "EPIPE") (constructor sample_env) in
      onError sample_env (VStr "EPIPE") s1 = (s1, [])
      /\ length (shown (out1 ++ (onError sample_env (VStr "EPIPE") s1).2)) <= 1).
Proof.
  apply (C3_crash_notification_and_error_dedup sample_env
           (constructor sample_env) (VNum 1) VNull (VStr "EPIPE") (VStr "EPIPE"));
    reflexivity.
Defined.

(** C4 as stated fails: before the handshake has completed, a message that
    is no sentinel and no log entry is handed to the application callback. *)
Lemma C4_early_message_reaches_callback :
  let '(s, out) :=
    run sample_env
      [StartExtensionHostProcess; Forked VUndefined; ChildMessage (VStr "hello")]
      (constructor sample_env) in
  extensionHostProcessReady s = false /\ delivered out = [VStr "hello"].
Proof. split; reflexivity. Qed.

(** C4, amended: a message from the child that is neither 'ready', nor
    'initialized', nor a log entry is handed to the application callback,
    once, whatever the state of the handshake; the supervisor's fields do not
    change and nothing is shown to the user. *)
Theorem C4_other_message_goes_to_callback env msg s :
  is_string "ready" msg = false ->
  is_string "initialized" msg = false ->
  is_log_entry msg = false ->
  on_message env msg s = (s, [Callback msg])
  /\ delivered (on_message env msg s).2 = [msg]
  /\ shown (on_message env msg s).2 = [].
Proof.
  intros H1 H2 H3.
  assert (on_message env msg s = (s, [Callback msg])) as E.
  { unfold on_message, onMessaage. by rewrite H1, H2, H3. }
  by rewrite E.
Qed.

Lemma C4_other_message_goes_to_callback_witness :
  on_message sample_env (VStr "hello") (constructor sample_env)
    = (constructor sample_env, [Callback (VStr "hello")])
  /\ delivered (on_message sample_env (VStr "hello") (constructor sample_env)).2
     = [VStr "hello"]
  /\ shown (on_message sample_env (VStr "hello") (constructor sample_env)).2 = [].
Proof.
  apply (C4_other_message_goes_to_callback sample_env (VStr "hello")
           (constructor sample_env)); reflexivity.
Defined.

End ThreadFacts.

(** ** The terminal backend *)
Module TerminalFacts.
Import Js Terminal.

Ltac unfold_M :=
  unfold outcome, final, effects, storage_get, storage_remove, storage_store,
    call, try_catch in *;
  unfold emit, lift, gets, modify, mbind, M_bind, mret, M_ret in *;
  cbv beta in *.

(** *** The detach guard *)

(** C8: [acceptDetachInstanceReply] with [persistentProcessId] undefined
    makes no call to the pty host, logs one warning and returns normally;
    the backend's fields do not change. *)
Theorem C8_detach_without_persistent_id svc requestId s :
  acceptDetachInstanceReply svc requestId None s
    = (Ok (), s, [LogWarn detach_warning []])
  /\ detach_calls (effects (acceptDetachInstanceReply svc requestId None) s) = []
  /\ length (warnings (effects (acceptDetachInstanceReply svc requestId None) s)) = 1.
Proof. done. Qed.

(** *** The session registry *)

Lemma on_pty_event_eval (e : pty_event) (s : state) :
  on_pty_event e s =
  match _ptys s !! event_id e with
  | Some p =>
      (Ok (),
       if is_exit e then set_ptys (delete (event_id e) (_ptys s)) s else s,
       [PtyCall p (event_call e)])
  | None => (Ok (), s, [])
  end.
Proof.
  destruct e; simpl; unfold dispatch; unfold_M; simpl;
    by destruct (_ptys s !! id).
Qed.

Lemma on_pty_events_cons e es s :
  on_pty_events (e :: es) s =
  let '(_, s1, out1) := on_pty_event e s in
  let '(r, s2, out2) := on_pty_events es s1 in
  (r, s2, out1 ++ out2).
Proof.
  simpl. unfold mbind, M_bind. rewrite on_pty_event_eval.
  by destruct (_ptys s !! event_id e).
Qed.

(** Events for an id that is not registered change nothing, wherever they
    occur in the stream. *)
Lemma on_pty_events_unregistered id es : forall s,
  _ptys s !! id = None ->
  on_pty_events es s
  = on_pty_events (filter (fun e => event_id e <> id) es) s.
Proof.
  induction es as [|e es IH]; intros s Hid; [done|].
  rewrite on_pty_events_cons, on_pty_event_eval.
  destruct (decide (event_id e = id)) as [Heq|Hne].
  - rewrite filter_cons_False by (intros H; by apply H).
    rewrite Heq, Hid, <- IH by done. by destruct (on_pty_events es s) as [[??]?].
  - rewrite filter_cons_True by done.
    rewrite on_pty_events_cons, on_pty_event_eval.
    destruct (_ptys s !! event_id e) as [p|]; [|by rewrite IH].
    rewrite IH; [done|]. destruct (is_exit e); [|done].
    simpl. by rewrite lookup_delete_ne.
Qed.

Lemma on_pty_events_dropped id es : forall s,
  _ptys s !! id = None ->
  Forall (fun e => event_id e = id) es ->
  on_pty_events es s = (Ok (), s, []).
Proof.
  induction es as [|e es IH]; intros s Hid Hall; [done|].
  apply Forall_cons in Hall as [He Hall].
  rewrite on_pty_events_cons, on_pty_event_eval, He, Hid.
  by rewrite IH.
Qed.

(** C9: an event of the pty host is dispatched to the handle registered for
    its id, with the handler of its kind, and dropped without any effect
    when no handle is registered; an exit first notifies the handle and then
    removes it, after which events for that id are no longer dispatched. *)
Theorem C9_registry_dispatch (e : pty_event) (id : Z) (ev : value)
    (es : list pty_event) (s : state) :
  on_pty_event e s
  = match _ptys s !! event_id e with
    | Some p =>
        (Ok (),
         if is_exit e then set_ptys (delete (event_id e) (_ptys s)) s else s,
         [PtyCall p (event_call e)])
    | None => (Ok (), s, [])
    end
  /\ (let s1 := final (on_pty_event (ProcessExit id ev)) s in
      _ptys s1 !! id = None
      /\ on_pty_events es s1
         = on_pty_events (filter (fun e => event_id e <> id) es) s1
      /\ on_pty_events (filter (fun e => event_id e = id) es) s1
         = (Ok (), s1, [])).
Proof.
  split; [apply on_pty_event_eval|].
  assert (_ptys (final (on_pty_event (ProcessExit id ev)) s) !! id = None) as Hid.
  { unfold final. rewrite on_pty_event_eval. simpl.
    destruct (_ptys s !! id) eqn:E; simpl; [apply lookup_delete_eq|done]. }
  split; [done|]. split; [by apply on_pty_events_unregistered|].
  apply (on_pty_events_dropped id); [done|].
  apply Forall_forall. by intros x [Hx _]%list_elem_of_filter.
Qed.

(** *** The health of the pty host *)

Lemma on_host_signal_responsive (s : state) :
  on_host_signal PtyHostResponsive s =
  if _isPtyHostUnresponsive s then
    (Ok (), set_health false None s,
     LogInfo "The pty host became responsive again" []
     :: match unresponsiveNotification s with
        | Some h => [NotificationClose h]
        | None => []
        end
     ++ [Fire OnPtyHostResponsive])
  else (Ok (), s, []).
Proof.
  unfold on_host_signal, close_notification. unfold_M.
  destruct (_isPtyHostUnresponsive s); simpl; [|done].
  by destruct (unresponsiveNotification s).
Qed.

Lemma on_host_signal_final sig s :
  outcome (on_host_signal sig) s = Ok () /\
  final (on_host_signal sig) s =
  match sig with
  | PtyHostExit => s
  | PtyHostStart => set_health false None s
  | PtyHostUnresponsive h => set_health true (Some h) s
  | PtyHostResponsive =>
      if _isPtyHostUnresponsive s then set_health false None s else s
  end.
Proof.
  destruct sig; try done.
  - unfold outcome, final. simpl. unfold close_notification. unfold_M.
    by destruct (unresponsiveNotification s).
  - unfold outcome, final. rewrite on_host_signal_responsive.
    by destruct (_isPtyHostUnresponsive s).
Qed.

Lemma on_host_signal_consistent sig s :
  health_consistent s -> health_consistent (final (on_host_signal sig) s).
Proof.
  unfold health_consistent. intros H.
  rewrite (proj2 (on_host_signal_final sig s)).
  destruct sig; try done; simpl.
  - split; [done|by intros [? ?]].
  - destruct (_isPtyHostUnresponsive s) eqn:E; simpl; [|by rewrite E].
    split; [done|by intros [? ?]].
Qed.

Lemma on_host_signals_consistent sigs : forall s,
  health_consistent s -> health_consistent (final (on_host_signals sigs) s).
Proof.
  induction sigs as [|sig sigs IH]; intros s H; [done|].
  pose proof (on_host_signal_consistent sig s H) as H1.
  specialize (IH _ H1). revert IH.
  pose proof (proj1 (on_host_signal_final sig s)) as Hok. revert Hok.
  unfold outcome, final. simpl. unfold mbind, M_bind.
  destruct (on_host_signal sig s) as [[[] s1] o1]; simpl; [|done].
  intros _. by destruct (on_host_signals sigs s1) as [[??]?].
Qed.

(** C7: a Responsive signal received while the monitor is responsive does
    nothing at all: no log entry, no dismissal, no event, no change of the
    fields.  Received while unresponsive, it logs, closes the notification
    that is then open, and fires the responsive event once; after it the
    monitor is responsive, so a repeated signal is again a no-op.  This holds
    in every state the listeners can reach. *)
Theorem C7_responsive_signal_idempotent (s0 : state) (sigs : list host_signal) :
  let s := final (on_host_signals sigs) (set_health false None s0) in
  match _isPtyHostUnresponsive s, unresponsiveNotification s with
  | false, _ => on_host_signal PtyHostResponsive s = (Ok (), s, [])
  | true, Some h =>
      on_host_signal PtyHostResponsive s
      = (Ok (), set_health false None s,
         [LogInfo "The pty host became responsive again" [];
          NotificationClose h;
          Fire OnPtyHostResponsive])
  | true, None => False
  end
  /\ (let s' := final (on_host_signal PtyHostResponsive) s in
      on_host_signal PtyHostResponsive s' = (Ok (), s', [])).
Proof.
  intros s.
  assert (health_consistent s) as Hc.
  { apply on_host_signals_consistent. split; [done|by intros [? ?]]. }
  split.
  - rewrite on_host_signal_responsive.
    destruct (_isPtyHostUnresponsive s) eqn:E; [|done].
    destruct (proj1 Hc E) as [h Hh]. by rewrite Hh.
  - intros s'. rewrite on_host_signal_responsive.
    replace (_isPtyHostUnresponsive s') with false; [done|].
    unfold s'. rewrite (proj2 (on_host_signal_final _ _)).
    by destruct (_isPtyHostUnresponsive s) eqn:E.
Qed.

(** *** Revival: the guards *)


Lemma nonempty_inv (o : option string) (blob : string) :
  nonempty o = Some blob -> o = Some blob /\ blob <> "".
Proof.
  destruct o as [b|]; simpl; [|done].
  destruct (String.eqb_spec b ""); [done|]. by intros [= ->].
Qed.

Lemma wrong_format_eval (v : value) (s : state) :
  wrong_format v s =
  if is_object v then
    (Ok (negb match field v "version", field v "state" with
              | Some _, Some state => isArray state
              | _, _ => false
              end), s, [])
  else (Throw TypeError, s, []).
Proof.
  unfold wrong_format, has_prop, get_prop. unfold_M.
  destruct v as [| | | | |l p|p]; simpl; try done;
    destruct (p !! "version"), (p !! "state");
    simpl; rewrite ?bool_decide_true, ?bool_decide_false by (by rewrite ?is_Some_alt);
    simpl; try done.
Qed.

Lemma get_prop_field (v : value) (k : string) (x : value) :
  field v k = Some x -> get_prop v k = Ok x.
Proof. destruct v; simpl; try done; by intros ->. Qed.

Lemma valid_schema_inv (v : value) :
  valid_schema v = true ->
  is_object v = true /\
  exists version state,
    field v "version" = Some version /\ field v "state" = Some state
    /\ isArray state = true /\ is_number 1 version = true.
Proof.
  unfold valid_schema.
  destruct (field v "version") as [ver|] eqn:E1; [|done].
  destruct (field v "state") as [st|] eqn:E2; [|done].
  intros [H1 H2]%andb_true_iff. split; [by destruct v|eauto 10].
Qed.

(** A parsed value either is the accepted envelope or fails validation, not
    both. *)
Lemma valid_schema_spec (v : value) :
  valid_schema v = false <-> fails_validation v.
Proof.
  unfold valid_schema, fails_validation. split.
  - destruct (field v "version") as [ver|]; [|by left].
    destruct (field v "state") as [st|]; [|by right; left].
    intros [H|H]%andb_false_iff; [right; right; left|right; right; right]; eauto.
  - intros [H|[H|[(st & H1 & H2)|(ver & H1 & H2)]]].
    + by rewrite H.
    + rewrite H. by destruct (field v "version").
    + rewrite H1. destruct (field v "version"); [|done]. by rewrite H2.
    + rewrite H1. destruct (field v "state"); [|done].
      rewrite H2. apply andb_false_r.
Qed.

Lemma revive_parse_error svc blob e s :
  JSON_parse svc blob = Throw e -> revive svc blob s = (Throw e, s, []).
Proof. intros H. unfold revive. unfold_M. by rewrite H. Qed.

(** The parsed value is null or a primitive: the test ['version' in ...]
    throws. *)
Lemma revive_not_object svc blob v s :
  JSON_parse svc blob = Ok v -> is_object v = false ->
  revive svc blob s = (Throw TypeError, s, []).
Proof.
  intros Hp Ho. unfold revive. unfold mbind at 1, M_bind at 1, lift at 1.
  rewrite Hp. unfold mbind at 1, M_bind at 1.
  by rewrite wrong_format_eval, Ho.
Qed.

(** The parsed value is an object that fails validation: one warning, and
    the method returns. *)
Lemma revive_fails_validation svc blob v s :
  JSON_parse svc blob = Ok v -> is_object v = true -> fails_validation v ->
  exists message args,
    revive svc blob s = (Ok Return, s, [LogWarn message args]).
Proof.
  intros Hp Ho Hf%valid_schema_spec. unfold revive.
  unfold mbind at 1, M_bind at 1, lift at 1.
  rewrite Hp. unfold mbind at 1, M_bind at 1.
  rewrite wrong_format_eval, Ho. unfold valid_schema in Hf.
  destruct (field v "version") as [ver|] eqn:E1; [|by eexists _, _].
  destruct (field v "state") as [st|] eqn:E2; [|by eexists _, _].
  destruct (isArray st); simpl in *; [|by eexists _, _].
  unfold_M. rewrite (get_prop_field _ _ _ E1), Hf. simpl. by eexists _, _.
Qed.

(** The parsed value is the accepted envelope: the entries are revived. *)
Lemma revive_valid svc blob v s :
  JSON_parse svc blob = Ok v -> valid_schema v = true ->
  exists state,
    field v "state" = Some state /\
    revive svc blob s =
    (let '(r, s1, out) := revive_entries svc (elements state) s in (r, s1, out)).
Proof.
  intros Hp (Ho & ver & st & E1 & E2 & Ha & Hn)%valid_schema_inv.
  exists st. split; [done|]. unfold revive.
  unfold mbind at 1, M_bind at 1, lift at 1.
  rewrite Hp. unfold mbind at 1, M_bind at 1.
  rewrite wrong_format_eval, Ho, E1, E2, Ha. simpl.
  unfold mbind at 1, M_bind at 1, lift at 1.
  rewrite (get_prop_field _ _ _ E1), Hn. simpl.
  unfold mbind at 1, M_bind at 1, lift at 1.
  rewrite (get_prop_field _ _ _ E2).
  by destruct (revive_entries svc (elements st) s) as [[??]?].
Qed.

(** *** [getTerminalLayoutInfo] by the outcome of its [try] block *)

Lemma getTerminalLayoutInfo_no_blob svc s :
  nonempty (storage s !! TerminalBufferState) = None ->
  getTerminalLayoutInfo svc s
  = (ptyGetTerminalLayoutInfo svc (workspaceId svc), s,
     [PtyGetTerminalLayoutInfo (workspaceId svc)]).
Proof.
  intros H. unfold getTerminalLayoutInfo. unfold_M. by rewrite H.
Qed.

Lemma getTerminalLayoutInfo_blob svc s blob :
  nonempty (storage s !! TerminalBufferState) = Some blob ->
  getTerminalLayoutInfo svc s
  = match revive svc blob s with
    | (Ok Return, s1, out) => (Ok VUndefined, s1, out)
    | (Ok Normal, s1, out) | (Throw _, s1, out) =>
        (ptyGetTerminalLayoutInfo svc (workspaceId svc), s1,
         out ++ [PtyGetTerminalLayoutInfo (workspaceId svc)])
    end.
Proof.
  intros H. unfold getTerminalLayoutInfo. unfold_M. rewrite H.
  destruct (revive svc blob s) as [[[[]|e] s1] out]; simpl;
    by rewrite ?app_nil_r.
Qed.

(** *** The version guard *)







(** *** Revival: the entries *)

Lemma resolveEnvironment_inv svc resolver slc s r s' out :
  _resolveEnvironmentForRevive svc resolver slc s = (r, s', out) ->
  s' = s /\ Forall loop_effect out /\
  forall freshEnv, r = Ok freshEnv ->
    exists baseEnv env,
      (if flag_set slc "useShellEnvironment"
       then shellEnv svc else ptyEnvironment svc) = Ok baseEnv
      /\ createTerminalEnvironment svc slc
           (configValue svc ("terminal.integrated.env." +:+ platformKey svc))
           resolver (productVersion svc) (detectLocale svc) baseEnv = Ok env
      /\ (if collection_applies slc
          then applyToProcessEnvironment svc env resolver = Ok freshEnv
               /\ out = [ApplyToProcessEnvironment env]
          else freshEnv = env /\ out = []).
Proof.
  unfold _resolveEnvironmentForRevive, collection_applies, flag_set. unfold_M.
  intros H.
  destruct (get_prop slc "useShellEnvironment") as [use|e] eqn:Euse;
    [|by simplify_eq].
  destruct (if truthy use then shellEnv svc else ptyEnvironment svc)
    as [baseEnv|e] eqn:Ebase; [|by simplify_eq].
  destruct (createTerminalEnvironment _ _ _ _ _ _ _) as [env|e] eqn:Eenv;
    [|by simplify_eq].
  destruct (get_prop slc "strictEnv") as [strict|e] eqn:Estrict;
    [|by simplify_eq].
  destruct (truthy strict); simpl in *.
  { simplify_eq. repeat split; [done|]. intros ? [= <-]. eauto 10. }
  destruct (get_prop slc "hideFromUser") as [hide|e] eqn:Ehide;
    [|by simplify_eq].
  destruct (truthy hide); simpl in *; simplify_eq.
  - repeat split; [done|]. intros ? [= <-]. eauto 10.
  - repeat split; [by repeat constructor|]. intros ? Hr. eauto 10.
Qed.

Lemma set_prop_get v k x v' : set_prop v k x = Ok v' -> get_prop v' k = Ok x.
Proof.
  destruct v; simpl; try done; intros [= <-]; simpl;
    by rewrite lookup_insert_eq.
Qed.

Lemma get_prop_twice_object v k w k' x :
  get_prop v k = Ok w -> get_prop w k' = Ok x -> is_object v = true.
Proof. destruct v; simpl; try done; by intros [= <-]. Qed.

Lemma with_prop_get v k x :
  is_object v = true -> get_prop (with_prop v k x) k = Ok x.
Proof. destruct v; simpl; try done; intros _; by rewrite lookup_insert_eq. Qed.

Lemma applications_app (o1 o2 : list effect) :
  applications (o1 ++ o2) = applications o1 ++ applications o2.
Proof. apply omap_app. Qed.

Lemma revive_loop_inv svc resolver parsed : forall s r s' out,
  revive_loop svc resolver parsed s = (r, s', out) ->
  s' = s /\ Forall loop_effect out /\
  forall es, r = Ok es ->
    exists apps, Forall3 (revived svc resolver) parsed es apps
                 /\ applications out = concat apps.
Proof.
  induction parsed as [|state rest IH]; intros s r s' out H.
  { simpl in H. unfold_M. simplify_eq. repeat split; [done|].
    intros es [= <-]. exists []. split; [constructor|done]. }
  simpl in H. unfold mbind, M_bind in H. unfold lift at 1 in H.
  destruct (get_prop state "processLaunchOptions") as [plo|e] eqn:Eplo;
    [|by simplify_eq].
  unfold lift at 1 in H.
  destruct (get_prop plo "env") as [before|e] eqn:Ebefore; [|by simplify_eq].
  unfold emit at 1, lift at 1 in H.
  destruct (get_prop state "shellLaunchConfig") as [slc|e] eqn:Eslc;
    [|simplify_eq; by repeat constructor].
  destruct (_resolveEnvironmentForRevive svc resolver slc s)
    as [[r1 s1] o1] eqn:Eres.
  apply resolveEnvironment_inv in Eres as (-> & Ho1 & Hfresh).
  destruct r1 as [freshEnv|e];
    [|simplify_eq/=; repeat split; [by constructor|done]].
  destruct (Hfresh _ eq_refl) as (baseEnv & env & Hbase & Henv & Happ).
  unfold emit, lift in H.
  destruct (set_prop plo "env" freshEnv) as [plo'|e] eqn:Eset;
    [|simplify_eq/=; repeat split; [|done]; constructor; [done|];
      apply Forall_app; split; [done|by repeat constructor]].
  pose proof (get_prop_twice_object _ _ _ _ _ Eplo Ebefore) as Hobj.
  rewrite (with_prop_get _ _ _ Hobj), (set_prop_get _ _ _ _ Eset) in H.
  destruct (revive_loop svc resolver rest s) as [[r2 s2] o2] eqn:Erest.
  apply IH in Erest as (-> & Ho2 & Hrest).
  assert (Forall loop_effect
            (LogInfo "env before" [before]
             :: o1 ++ LogInfo "fresh env" [freshEnv]
                :: LogInfo "env after" [freshEnv] :: o2)) as Hall.
  { constructor; [done|]. apply Forall_app. split; [done|].
    by repeat constructor. }
  destruct r2 as [es'|e]; simplify_eq/=; rewrite ?app_nil_r;
    (repeat split; [done|]); [|done].
  intros es [= <-].
  destruct (Hrest _ eq_refl) as (apps & Hf3 & Happs).
  exists ((if collection_applies slc then [env] else []) :: apps). split.
  - constructor; [|done].
    exists slc, plo, baseEnv, env, freshEnv, plo'.
    repeat split; try done.
    + destruct (collection_applies slc), Happ as [? ?]; by split.
    + by apply with_prop_get.
    + by eapply set_prop_get.
  - rewrite applications_app. cbn [concat]. rewrite <- Happs.
    cbn. f_equal. by destruct (collection_applies slc), Happ as [_ ->].
Qed.

(** *** Revival: after the entries are resolved *)

Lemma finish_revival_eval svc s :
  finish_revival svc s =
  let s1 := set_storage (delete TerminalBufferState (storage s)) s in
  match nonempty (storage s !! TerminalLayoutInfo) with
  | None => (Ok Normal, s1, [])
  | Some layoutInfo =>
      match JSON_parse svc layoutInfo with
      | Throw e => (Throw e, s1, [])
      | Ok args =>
          match ptySetTerminalLayoutInfo svc args with
          | Ok _ =>
              (Ok Normal,
               set_storage (delete TerminalLayoutInfo (storage s1)) s1,
               [PtySetTerminalLayoutInfo args])
          | Throw e => (Throw e, s1, [PtySetTerminalLayoutInfo args])
          end
      end
  end.
Proof.
  unfold finish_revival. unfold_M. simpl.
  rewrite lookup_delete_ne by done.
  destruct (nonempty (storage s !! TerminalLayoutInfo)) as [layoutInfo|];
    [|done].
  destruct (JSON_parse svc layoutInfo) as [args|e]; [|done].
  by destruct (ptySetTerminalLayoutInfo svc args) as [[]|e].
Qed.

(** The [try] block never ends by a [return] once the guards are passed. *)
Lemma finish_revival_not_Return svc s :
  (finish_revival svc s).1.1 <> Ok Return.
Proof.
  rewrite finish_revival_eval. simpl.
  by repeat case_match.
Qed.

Lemma revive_calls_app (o1 o2 : list effect) :
  revive_calls (o1 ++ o2) = revive_calls o1 ++ revive_calls o2.
Proof. apply omap_app. Qed.

Lemma loop_effects_views (out : list effect) :
  Forall loop_effect out ->
  revive_calls out = [] /\ warnings out = [] /\ layout_queries out = []
  /\ set_layout_calls out = [].
Proof.
  induction 1 as [|e out He _ (IH1 & IH2 & IH3 & IH4)]; [done|].
  by destruct e.
Qed.

Lemma revive_entries_eval svc parsed s :
  let resolver :=
    fun profileEnv =>
      createVariableResolver svc
        (getLastActiveWorkspaceRoot svc ≫= getWorkspaceFolder svc) profileEnv in
  (exists e pre, revive_entries svc parsed s = (Throw e, s, pre)
                 /\ Forall loop_effect pre)
  \/ (exists profileEnv es pre apps,
        profileEnvironment svc = Ok profileEnv
        /\ Forall loop_effect pre
        /\ Forall3 (revived svc (resolver profileEnv)) parsed es apps
        /\ applications pre = concat apps
        /\ revive_entries svc parsed s =
           match ptyReviveTerminalProcesses svc es (locale svc) with
           | Throw e =>
               (Throw e, s, pre ++ [PtyReviveTerminalProcesses es (locale svc)])
           | Ok _ =>
               let '(r, s', rest) := finish_revival svc s in
               (r, s', pre ++ PtyReviveTerminalProcesses es (locale svc) :: rest)
           end).
Proof.
  intros resolver. unfold revive_entries, call. unfold_M.
  destruct (profileEnvironment svc) as [profileEnv|e] eqn:Eprof;
    [|left; by exists e, []].
  destruct (revive_loop svc _ parsed s) as [[r1 s1] pre] eqn:Eloop.
  pose proof Eloop as (-> & Hpre & Hes)%revive_loop_inv.
  destruct r1 as [es|e]; [|left; by exists e, pre].
  destruct (Hes _ eq_refl) as (apps & Hf3 & Happs).
  right. exists profileEnv, es, pre, apps. repeat split; try done.
  simpl.
  destruct (ptyReviveTerminalProcesses svc es (locale svc)) as [[]|e]; [|done].
  by destruct (finish_revival svc s) as [[??]?].
Qed.

Lemma finish_revival_views svc s :
  revive_calls (finish_revival svc s).2 = []
  /\ applications (finish_revival svc s).2 = []
  /\ warnings (finish_revival svc s).2 = []
  /\ layout_queries (finish_revival svc s).2 = [].
Proof. rewrite finish_revival_eval. simpl. by repeat case_match. Qed.

(** Whenever [getTerminalLayoutInfo] calls [reviveTerminalProcesses], the
    stored state was the accepted envelope, every entry was resolved, and the
    run has the following shape. *)
Lemma getTerminalLayoutInfo_revived svc s es loc :
  (es, loc) ∈ revive_calls (effects (getTerminalLayoutInfo svc) s) ->
  exists blob v state profileEnv pre apps,
    storage s !! TerminalBufferState = Some blob /\ blob <> ""
    /\ JSON_parse svc blob = Ok v /\ valid_schema v = true
    /\ field v "state" = Some state
    /\ profileEnvironment svc = Ok profileEnv
    /\ loc = locale svc
    /\ Forall loop_effect pre
    /\ Forall3
         (revived svc
            (createVariableResolver svc
               (getLastActiveWorkspaceRoot svc ≫= getWorkspaceFolder svc)
               profileEnv))
         (elements state) es apps
    /\ applications pre = concat apps
    /\ getTerminalLayoutInfo svc s =
       match ptyReviveTerminalProcesses svc es loc with
       | Throw _ =>
           (ptyGetTerminalLayoutInfo svc (workspaceId svc), s,
            pre ++ [PtyReviveTerminalProcesses es loc;
                    PtyGetTerminalLayoutInfo (workspaceId svc)])
       | Ok _ =>
           let '(_, s', rest) := finish_revival svc s in
           (ptyGetTerminalLayoutInfo svc (workspaceId svc), s',
            pre ++ PtyReviveTerminalProcesses es loc
                   :: rest ++ [PtyGetTerminalLayoutInfo (workspaceId svc)])
       end.
Proof.
  unfold effects. intros H.
  destruct (nonempty (storage s !! TerminalBufferState)) as [blob|] eqn:En.
  2: { rewrite (getTerminalLayoutInfo_no_blob _ _ En) in H.
       by apply elem_of_nil in H. }
  rewrite (getTerminalLayoutInfo_blob _ _ _ En) in H |- *.
  apply nonempty_inv in En as [Hs Hne].
  destruct (JSON_parse svc blob) as [v|e] eqn:Ep.
  2: { rewrite (revive_parse_error _ _ _ _ Ep) in H.
       by apply elem_of_nil in H. }
  destruct (valid_schema v) eqn:Ev.
  2: { apply valid_schema_spec in Ev. destruct (is_object v) eqn:Eo.
       - destruct (revive_fails_validation svc blob v s Ep Eo Ev)
           as (m & a & Hr).
         rewrite Hr in H. by apply elem_of_nil in H.
       - rewrite (revive_not_object _ _ _ _ Ep Eo) in H.
         by apply elem_of_nil in H. }
  destruct (revive_valid svc blob v s Ep Ev) as (state & Hst & Hrev).
  rewrite Hrev in H |- *. clear Hrev.
  destruct (revive_entries_eval svc (elements state) s)
    as [(e & pre & Heq & Hpre)
       |(profileEnv & es0 & pre & apps & Hprof & Hpre & Hf3 & Happs & Heq)];
    rewrite Heq in H |- *; clear Heq;
    destruct (loop_effects_views pre Hpre) as (Hrc & _).
  { simpl in H. rewrite revive_calls_app, Hrc in H.
    by apply elem_of_nil in H. }
  assert (es = es0 /\ loc = locale svc) as [-> ->].
  { destruct (ptyReviveTerminalProcesses svc es0 (locale svc)) as [[]|e].
    - pose proof (finish_revival_views svc s) as (Hfr & _).
      pose proof (finish_revival_not_Return svc s) as Hnr.
      destruct (finish_revival svc s) as [[r s'] rest]. simpl in Hfr, Hnr.
      assert ((es, loc) ∈ [(es0, locale svc)]) as Hin.
      { destruct r as [[]|e]; try done; simpl in H;
          rewrite ?revive_calls_app, ?Hrc in H; simpl in H;
          rewrite ?revive_calls_app, ?Hfr in H; by simpl in H. }
      apply list_elem_of_singleton in Hin. by simplify_eq.
    - simpl in H. rewrite !revive_calls_app, Hrc in H. simpl in H.
      apply list_elem_of_singleton in H. by simplify_eq. }
  exists blob, v, state, profileEnv, pre, apps.
  repeat split; try done.
  destruct (ptyReviveTerminalProcesses svc es0 (locale svc)) as [[]|e].
  - pose proof (finish_revival_not_Return svc s) as Hnr.
    destruct (finish_revival svc s) as [[r s'] rest]. simpl in Hnr.
    destruct r as [[]|e]; try done; simpl; by rewrite <- app_assoc.
  - simpl. by rewrite <- app_assoc.
Qed.

(** *** Fresh environments *)

(** The revived entry does not depend on the environment snapshot stored
    with the entry: any other snapshot in its place gives the same entry. *)
Lemma revived_ignores_snapshot svc resolver state state' applied plo snapshot plo2 :
  revived svc resolver state state' applied ->
  get_prop state "processLaunchOptions" = Ok plo ->
  set_prop plo "env" snapshot = Ok plo2 ->
  revived svc resolver (with_prop state "processLaunchOptions" plo2)
    state' applied.
Proof.
  intros (slc & plo0 & baseEnv & env & freshEnv & plo' & Hslc & Hplo & Hbase
          & Henv & Happ & Hset & -> & Hget & Hgete) Hplo1 Hsnap.
  rewrite Hplo in Hplo1. injection Hplo1 as ->.
  assert (is_object state = true) as Hobj.
  { destruct state; try done; simpl in *; simplify_eq; by destruct snapshot. }
  exists slc, plo2, baseEnv, env, freshEnv, plo'.
  repeat split; try done.
  - destruct state; try done; simpl in *; by rewrite lookup_insert_ne.
  - by apply with_prop_get.
  - destruct plo; try done; simpl in *; simplify_eq; simpl;
      by rewrite insert_insert_eq.
  - destruct state; try done; simpl; by rewrite insert_insert_eq.
Qed.

(** C5: every entry handed to [reviveTerminalProcesses] is the stored entry
    of a version-1 envelope with its [processLaunchOptions.env] replaced by
    an environment resolved afresh: created from the entry's shell-launch
    config, the overrides configured for the platform, a resolver built from
    the last active workspace root and the terminal-profile environment, and
    a base environment.  The merged collection is applied to it if and only
    if the shell-launch config has neither [strictEnv] nor [hideFromUser]
    set, and the applications made during the run are exactly these. *)
Theorem C5_revived_entries_get_fresh_environment svc s es loc :
  (es, loc) ∈ revive_calls (effects (getTerminalLayoutInfo svc) s) ->
  exists blob v state profileEnv applied,
    storage s !! TerminalBufferState = Some blob
    /\ JSON_parse svc blob = Ok v
    /\ valid_schema v = true
    /\ field v "state" = Some state
    /\ profileEnvironment svc = Ok profileEnv
    /\ Forall3
         (revived svc
            (createVariableResolver svc
               (getLastActiveWorkspaceRoot svc ≫= getWorkspaceFolder svc)
               profileEnv))
         (elements state) es applied
    /\ applications (effects (getTerminalLayoutInfo svc) s) = concat applied.
Proof.
  intros H.
  destruct (getTerminalLayoutInfo_revived svc s es loc H)
    as (blob & v & state & profileEnv & pre & apps & Hs & _ & Hp & Hv & Hst
        & Hprof & -> & Hpre & Hf3 & Happs & Heq).
  exists blob, v, state, profileEnv, apps. repeat split; try done.
  unfold effects. rewrite Heq, <- Happs.
  destruct (ptyReviveTerminalProcesses svc es (locale svc)) as [[]|e].
  - pose proof (finish_revival_views svc s) as (_ & Hfa & _).
    destruct (finish_revival svc s) as [[r s'] rest]. simpl in *.
    rewrite applications_app. simpl. rewrite applications_app, Hfa. simpl.
    by rewrite app_nil_r.
  - simpl. rewrite applications_app. simpl. by rewrite app_nil_r.
Qed.

Lemma C5_revived_entries_get_fresh_environment_witness :
  let svc := sample_services (Ok ()) in
  let s := stored sample_blob None in
  let es :=
    [with_prop sample_entry "processLaunchOptions"
       (obj [("env", obj [("NEW", VStr "2")])])] in
  (es, "en-US") ∈ revive_calls (effects (getTerminalLayoutInfo svc) s)
  /\ exists blob v state profileEnv applied,
       storage s !! TerminalBufferState = Some blob
       /\ JSON_parse svc blob = Ok v
       /\ valid_schema v = true
       /\ field v "state" = Some state
       /\ profileEnvironment svc = Ok profileEnv
       /\ Forall3
            (revived svc
               (createVariableResolver svc
                  (getLastActiveWorkspaceRoot svc ≫= getWorkspaceFolder svc)
                  profileEnv))
            (elements state) es applied
       /\ applications (effects (getTerminalLayoutInfo svc) s)
          = concat applied.
Proof.
  intros svc s es.
  assert ((es, "en-US") ∈ revive_calls (effects (getTerminalLayoutInfo svc) s))
    as H by (vm_compute; apply list_elem_of_here).
  split; [exact H|].
  exact (C5_revived_entries_get_fresh_environment svc s es "en-US" H).
Defined.

(** *** One-shot revival *)

(** C6 as stated fails: the revival succeeds and a layout is pending, but
    the pty host rejects [setTerminalLayoutInfo]; the stored state is
    deleted, the layout is not. *)
Lemma C6_layout_kept_when_reapplying_fails :
  let svc := sample_services (Throw (Rejected "pty host")) in
  let s := stored sample_blob (Some sample_layout) in
  let s' := final (getTerminalLayoutInfo svc) s in
  (exists es,
     revive_calls (effects (getTerminalLayoutInfo svc) s) = [(es, "en-US")]
     /\ ptyReviveTerminalProcesses svc es "en-US" = Ok ())
  /\ storage s !! TerminalLayoutInfo = Some sample_layout
  /\ storage s' !! TerminalBufferState = None
  /\ storage s' !! TerminalLayoutInfo = Some sample_layout.
Proof.
  intros svc s s'. split; [|by vm_compute].
  eexists. split; [by vm_compute|done].
Qed.

(** C6, amended: whenever [reviveTerminalProcesses] returns without
    throwing, the stored state is deleted, so a second read revives nothing.
    A stored layout that is not empty and parses is then sent to the pty
    host with [setTerminalLayoutInfo], right after the revival, and is
    deleted when that call succeeds; when the layout does not parse or the
    call is rejected, the exception is swallowed and the layout stays in
    storage. *)
Theorem C6_successful_revival_is_one_shot svc s es loc :
  (es, loc) ∈ revive_calls (effects (getTerminalLayoutInfo svc) s) ->
  ptyReviveTerminalProcesses svc es loc = Ok () ->
  let s' := final (getTerminalLayoutInfo svc) s in
  let out := effects (getTerminalLayoutInfo svc) s in
  storage s' !! TerminalBufferState = None
  /\ revive_calls (effects (getTerminalLayoutInfo svc) s') = []
  /\ match nonempty (storage s !! TerminalLayoutInfo) with
     | None =>
         set_layout_calls out = []
         /\ storage s' !! TerminalLayoutInfo = storage s !! TerminalLayoutInfo
     | Some layoutInfo =>
         match JSON_parse svc layoutInfo with
         | Throw _ =>
             set_layout_calls out = []
             /\ storage s' !! TerminalLayoutInfo = Some layoutInfo
         | Ok args =>
             (exists pre,
                Forall loop_effect pre
                /\ out = pre ++ [PtyReviveTerminalProcesses es loc;
                                 PtySetTerminalLayoutInfo args;
                                 PtyGetTerminalLayoutInfo (workspaceId svc)])
             /\ match ptySetTerminalLayoutInfo svc args with
                | Ok _ => storage s' !! TerminalLayoutInfo = None
                | Throw _ => storage s' !! TerminalLayoutInfo = Some layoutInfo
                end
         end
     end.
Proof.
  intros H Hok s' out.
  destruct (getTerminalLayoutInfo_revived svc s es loc H)
    as (blob & v & state & profileEnv & pre & apps & Hs & _ & Hp & Hv & Hst
        & Hprof & -> & Hpre & Hf3 & Happs & Heq).
  rewrite Hok, finish_revival_eval in Heq. cbv zeta in Heq.
  destruct (loop_effects_views pre Hpre) as (_ & _ & _ & Hsl).
  assert (forall s1,
            storage s1 !! TerminalBufferState = None ->
            revive_calls (effects (getTerminalLayoutInfo svc) s1) = [])
    as Honce.
  { intros s1 Hs1. unfold effects.
    rewrite getTerminalLayoutInfo_no_blob; [done|]. by rewrite Hs1. }
  unfold s', out, final, effects in *. clear s' out.
  destruct (nonempty (storage s !! TerminalLayoutInfo)) as [layoutInfo|] eqn:En.
  2: { rewrite Heq. simpl. rewrite lookup_delete_eq, lookup_delete_ne by done.
       unfold set_layout_calls in *. rewrite omap_app, Hsl.
       repeat split; try done. apply Honce. simpl. apply lookup_delete_eq. }
  destruct (JSON_parse svc layoutInfo) as [args|e].
  2: { rewrite Heq. simpl. rewrite lookup_delete_eq, lookup_delete_ne by done.
       apply nonempty_inv in En as [Hl _].
       unfold set_layout_calls in *. rewrite omap_app, Hsl.
       repeat split; try done. apply Honce. simpl. apply lookup_delete_eq. }
  apply nonempty_inv in En as [Hl _].
  destruct (ptySetTerminalLayoutInfo svc args) as [[]|e];
    rewrite Heq; simpl.
  - rewrite lookup_delete_ne, !lookup_delete_eq by done.
    repeat split; try done; [|by exists pre].
    apply Honce. simpl. rewrite lookup_delete_ne by done.
    apply lookup_delete_eq.
  - rewrite lookup_delete_eq, lookup_delete_ne by done.
    repeat split; try done; [|by exists pre].
    apply Honce. simpl. apply lookup_delete_eq.
Qed.

Lemma C6_successful_revival_is_one_shot_witness :
  let svc := sample_services (Ok ()) in
  let s := stored sample_blob (Some sample_layout) in
  let es :=
    [with_prop sample_entry "processLaunchOptions"
       (obj [("env", obj [("NEW", VStr "2")])])] in
  let s' := final (getTerminalLayoutInfo svc) s in
  let out := effects (getTerminalLayoutInfo svc) s in
  (es, "en-US") ∈ revive_calls out
  /\ storage s' !! TerminalBufferState = None
  /\ revive_calls (effects (getTerminalLayoutInfo svc) s') = []
  /\ (exists pre,
        Forall loop_effect pre
        /\ out = pre ++ [PtyReviveTerminalProcesses es "en-US";
                         PtySetTerminalLayoutInfo
                           (obj [("workspaceId", VStr "ws"); ("tabs", arr [])]);
                         PtyGetTerminalLayoutInfo "ws"])
  /\ storage s' !! TerminalLayoutInfo = None.
Proof.
  intros svc s es s' out.
  assert ((es, "en-US") ∈ revive_calls out)
    as H by (vm_compute; apply list_elem_of_here).
  split; [exact H|].
  pose proof (C6_successful_revival_is_one_shot svc s es "en-US" H eq_refl)
    as (H1 & H2 & H3 & H4).
  auto.
Defined.

End TerminalFacts.

(** ** The supervisor: further properties *)
Module ThreadMore.
Import Js Thread ThreadExt ThreadFacts.

Lemma posts_app (i1 i2 : list input) : posts (i1 ++ i2) = posts i1 ++ posts i2.
Proof. apply omap_app. Qed.

Lemma posts_cons (i : input) (ins : list input) :
  posts (i :: ins) = posts [i] ++ posts ins.
Proof. apply (posts_app [i]). Qed.

(** Before the start, posting queues the message and nothing else has an
    effect on the queue. *)
Lemma step_unstarted env i s :
  before_handshake i ->
  extensionHostProcessReady s = false ->
  initializeExtensionHostProcess s = None ->
  extensionHostProcessHandle s = false ->
  let s1 := (step env i s).1 in
  extensionHostProcessReady s1 = false
  /\ initializeExtensionHostProcess s1 = None
  /\ extensionHostProcessHandle s1 = false
  /\ unsentMessages s1 = unsentMessages s ++ posts [i].
Proof.
  intros Hi Hr Hp Hh. destruct i; simpl in *; try done.
  - rewrite Hp. simpl. by rewrite app_nil_r.
  - rewrite (postMessage_unstarted _ _ Hr Hp). by simpl.
  - rewrite Hh. simpl. by rewrite app_nil_r.
  - rewrite Hh. simpl. by rewrite app_nil_r.
  - rewrite Hh. simpl. by rewrite app_nil_r.
  - by rewrite app_nil_r.
Qed.

Lemma run_unstarted env ins : forall s,
  Forall before_handshake ins ->
  extensionHostProcessReady s = false ->
  initializeExtensionHostProcess s = None ->
  extensionHostProcessHandle s = false ->
  let s1 := (run env ins s).1 in
  extensionHostProcessReady s1 = false
  /\ initializeExtensionHostProcess s1 = None
  /\ extensionHostProcessHandle s1 = false
  /\ unsentMessages s1 = unsentMessages s ++ posts ins.
Proof.
  induction ins as [|i ins IH]; intros s Hall Hr Hp Hh.
  { simpl. by rewrite app_nil_r. }
  apply Forall_cons in Hall as [Hi Hall].
  destruct (step_unstarted env i s Hi Hr Hp Hh) as (Hr1 & Hp1 & Hh1 & Hu1).
  rewrite posts_cons. cbn [run].
  destruct (step env i s) as [s1 o1]. cbn [fst] in *.
  destruct (IH s1 Hall Hr1 Hp1 Hh1) as (Hr2 & Hp2 & Hh2 & Hu2).
  destruct (run env ins s1) as [s2 o2]. cbn [fst] in *.
  repeat split; try done. by rewrite Hu2, Hu1, app_assoc.
Qed.

(** Between the start and 'initialized', posting registers a listener behind
    those there and nothing else touches the listeners or the queue. *)
Lemma step_pending env i s ls :
  before_handshake i ->
  extensionHostProcessReady s = false ->
  initializeExtensionHostProcess s = Some (Pending ls) ->
  extensionHostProcessHandle s = true ->
  let s1 := (step env i s).1 in
  extensionHostProcessReady s1 = false
  /\ initializeExtensionHostProcess s1 = Some (Pending (ls ++ posts [i]))
  /\ extensionHostProcessHandle s1 = true
  /\ unsentMessages s1 = unsentMessages s.
Proof.
  intros Hi Hr Hp Hh. destruct i; simpl in *; try done.
  - rewrite Hp. simpl. by rewrite app_nil_r.
  - rewrite (postMessage_pending _ _ ls Hr Hp). by simpl.
  - rewrite Hh. unfold on_message, onMessaage, initializeExtensionHost,
      logExtensionHostMessage. rewrite Hi, app_nil_r.
    by repeat case_match; simplify_eq/=.
  - rewrite Hh, app_nil_r. unfold onError. by repeat case_match; simplify_eq/=.
  - rewrite Hh. simpl. by rewrite app_nil_r.
  - by rewrite app_nil_r.
Qed.

Lemma run_pending env ins : forall s ls,
  Forall before_handshake ins ->
  extensionHostProcessReady s = false ->
  initializeExtensionHostProcess s = Some (Pending ls) ->
  extensionHostProcessHandle s = true ->
  let s1 := (run env ins s).1 in
  extensionHostProcessReady s1 = false
  /\ initializeExtensionHostProcess s1 = Some (Pending (ls ++ posts ins))
  /\ extensionHostProcessHandle s1 = true
  /\ unsentMessages s1 = unsentMessages s.
Proof.
  induction ins as [|i ins IH]; intros s ls Hall Hr Hp Hh.
  { simpl. by rewrite app_nil_r. }
  apply Forall_cons in Hall as [Hi Hall].
  destruct (step_pending env i s ls Hi Hr Hp Hh) as (Hr1 & Hp1 & Hh1 & Hu1).
  rewrite posts_cons. cbn [run].
  destruct (step env i s) as [s1 o1]. cbn [fst] in *.
  destruct (IH s1 _ Hall Hr1 Hp1 Hh1) as (Hr2 & Hp2 & Hh2 & Hu2).
  destruct (run env ins s1) as [s2 o2]. cbn [fst] in *.
  repeat split; try done; [|congruence]. by rewrite Hp2, app_assoc.
Qed.

(** X1: whatever is posted before 'initialized', and whatever else happens
    meanwhile short of a restart, the handling of 'initialized' sends the
    child every posted message exactly once: first those posted since the
    start, in the order of submission, then those posted before the start,
    in the order of submission; and the host is ready afterwards. *)
Theorem initialized_flushes_every_post_once env port (ins0 ins : list input) :
  Forall before_handshake ins0 ->
  Forall before_handshake ins ->
  let s1 :=
    (run env (ins0 ++ StartExtensionHostProcess :: Forked port :: ins)
       (constructor env)).1 in
  let '(s2, out) := step env (ChildMessage (VStr "initialized")) s1 in
  extensionHostProcessReady s1 = false
  /\ out = Send <$> (posts ins ++ posts ins0)
  /\ extensionHostProcessReady s2 = true
  /\ unsentMessages s2 = [].
Proof.
  intros H0 H1. rewrite run_app.
  destruct (run_unstarted env ins0 (constructor env) H0)
    as (Hr & Hp & Hh & Hu); try done.
  destruct (run env ins0 (constructor env)) as [sa oa]. simpl in Hr, Hp, Hh, Hu.
  change (StartExtensionHostProcess :: Forked port :: ins)
    with ([StartExtensionHostProcess; Forked port] ++ ins).
  rewrite run_app.
  assert (exists sb ob,
            run env [StartExtensionHostProcess; Forked port] sa = (sb, ob)
            /\ extensionHostProcessReady sb = false
            /\ initializeExtensionHostProcess sb = Some (Pending [])
            /\ extensionHostProcessHandle sb = true
            /\ unsentMessages sb = posts ins0)
    as (sb & ob & -> & Hrb & Hpb & Hhb & Hub).
  { simpl. unfold startExtensionHostProcess, forkExtensionHost.
    destruct (negb (isBuilt env) || _); simpl; eexists _, _;
      by repeat split. }
  destruct (run_pending env ins sb [] H1 Hrb Hpb Hhb) as (Hr1 & Hp1 & Hh1 & Hu1).
  destruct (run env ins sb) as [s1 o1]. simpl in *.
  rewrite Hh1, (on_message_initialized env s1 (posts ins) Hr1 Hp1).
  rewrite Hu1, Hub. by repeat split.
Qed.

Lemma initialized_flushes_every_post_once_witness :
  let ins0 := [PostMessage (VStr "a"); Terminate] in
  let ins := [PostMessage (VStr "b"); ChildMessage (VStr "ready");
              ChildError (VStr "EPIPE"); PostMessage (VStr "c")] in
  Forall before_handshake ins0
  /\ Forall before_handshake ins
  /\ let s1 :=
       (run sample_env
          (ins0 ++ StartExtensionHostProcess :: Forked VUndefined :: ins)
          (constructor sample_env)).1 in
     let '(s2, out) := step sample_env (ChildMessage (VStr "initialized")) s1 in
     extensionHostProcessReady s1 = false
     /\ out = Send <$> (posts ins ++ posts ins0)
     /\ extensionHostProcessReady s2 = true
     /\ unsentMessages s2 = [].
Proof.
  intros ins0 ins.
  assert (Forall before_handshake ins0) as H0 by (repeat constructor).
  assert (Forall before_handshake ins) as H1 by (repeat constructor).
  split; [exact H0|]. split; [exact H1|].
  exact (initialized_flushes_every_post_once sample_env VUndefined ins0 ins H0 H1).
Defined.

(** X2: as long as the child has not sent 'initialized', the only payloads
    the supervisor sends it are its own (the initialisation payload in reply
    to 'ready', the terminate message): nothing that was posted, whatever the
    order of posts, starts, errors, exits and other messages. *)
Theorem nothing_posted_reaches_child_before_initialized env ins m :
  Forall not_initialized ins ->
  m ∈ sent (run env ins (constructor env)).2 ->
  m = VStr (initPayload env) \/ m = terminate_message.
Proof.
  intros Hall. apply nothing_posted_is_sent_before_initialized.
  - apply constructor_awaiting.
  - eapply Forall_impl; [exact Hall|]. by intros i Hi msg ->.
Qed.

Lemma nothing_posted_reaches_child_before_initialized_witness :
  let ins := [PostMessage (VStr "a"); StartExtensionHostProcess;
              Forked VUndefined; PostMessage (VStr "b");
              ChildMessage (VStr "ready"); Terminate] in
  Forall not_initialized ins
  /\ VStr "{init}" ∈ sent (run sample_env ins (constructor sample_env)).2
  /\ (VStr "{init}" = VStr (initPayload sample_env)
      \/ VStr "{init}" = terminate_message).
Proof.
  intros ins.
  assert (Forall not_initialized ins) as H by (repeat constructor).
  assert (VStr "{init}" ∈ sent (run sample_env ins (constructor sample_env)).2)
    as Hm by (vm_compute; apply list_elem_of_here).
  split; [exact H|]. split; [exact Hm|].
  exact (nothing_posted_reaches_child_before_initialized sample_env ins _ H Hm).
Defined.

(** *** Termination *)

Lemma step_stays_terminating env i s :
  terminating s = true -> terminating (step env i s).1 = true.
Proof.
  intros H. destruct i; try (by rewrite step_terminating). done.
Qed.

Lemma run_stays_terminating env ins : forall s,
  terminating s = true -> terminating (run env ins s).1 = true.
Proof.
  induction ins as [|i ins IH]; intros s H; [done|]. cbn [run].
  pose proof (step_stays_terminating env i s H) as H1.
  destruct (step env i s) as [s1 o1]. specialize (IH s1 H1).
  by destruct (run env ins s1) as [s2 o2].
Qed.

Lemma run_terminated env ins : forall s,
  Terminate ∈ ins -> terminating (run env ins s).1 = true.
Proof.
  induction ins as [|i ins IH]; intros s Hin; [by apply elem_of_nil in Hin|].
  cbn [run]. apply elem_of_cons in Hin as [<-|Hin].
  - pose proof (run_stays_terminating env ins (set_terminating true s) eq_refl).
    simpl. by destruct (run env ins (set_terminating true s)) as [s2 o2].
  - destruct (step env i s) as [s1 o1]. specialize (IH s1 Hin).
    by destruct (run env ins s1) as [s2 o2].
Qed.

(** X3: once [terminate] has been called, whatever happens afterwards, the
    exit of the child is expected: [onExit] shows no notification, closes no
    window and reports no exit code, in every mode. *)
Theorem exit_after_terminate_is_silent env ins s code signal :
  Terminate ∈ ins ->
  let s1 := (run env ins s).1 in
  onExit code signal s1 = (s1, [RemoveExitListener]).
Proof.
  intros Hin. cbv zeta. unfold onExit.
  by rewrite (run_terminated env ins s Hin).
Qed.

Lemma exit_after_terminate_is_silent_witness :
  let ins := [StartExtensionHostProcess; Forked VUndefined; Terminate;
              ChildMessage (VStr "ready")] in
  Terminate ∈ ins
  /\ let s1 := (run sample_env ins (constructor sample_env)).1 in
     onExit (VNum 0) VNull s1 = (s1, [RemoveExitListener]).
Proof.
  intros ins.
  assert (Terminate ∈ ins) as H by (do 2 apply list_elem_of_further; apply list_elem_of_here).
  split; [exact H|].
  exact (exit_after_terminate_is_silent sample_env ins (constructor sample_env)
           (VNum 0) VNull H).
Defined.

(** *** Errors of the child *)

(** X4: of a burst of 'error' events, the supervisor shows exactly the error
    texts that differ from the one reported just before: the notifications
    are the texts with adjacent repetitions removed.  A text that comes back
    after a different one is shown again. *)
Theorem error_burst_shows_adjacent_distinct_texts env (errs : list value) :
  forall s,
  extensionHostProcessHandle s = true ->
  shown (run env (ChildError <$> errs) s).2
  = error_notification
    <$> dedup_adjacent (lastExtensionHostError s) (toErrorMessage env <$> errs).
Proof.
  induction errs as [|err errs IH]; intros s Hh; [done|].
  cbn [fmap list_fmap run step dedup_adjacent]. rewrite Hh. unfold onError.
  destruct (bool_decide (lastExtensionHostError s = _)) eqn:E.
  - specialize (IH s Hh).
    destruct (run env (ChildError <$> errs) s) as [s2 o2]. by simpl in *.
  - specialize (IH (set_lastError (Some (toErrorMessage env err)) s) Hh).
    destruct (run env (ChildError <$> errs) _) as [s2 o2]. simpl in *.
    by rewrite IH.
Qed.

Lemma error_burst_shows_adjacent_distinct_texts_witness :
  let s := (run sample_env [StartExtensionHostProcess; Forked VUndefined]
              (constructor sample_env)).1 in
  extensionHostProcessHandle s = true
  /\ shown (run sample_env
              (ChildError <$> [VStr "A"; VStr "A"; VStr "B"; VStr "A"]) s).2
     = error_notification
       <$> dedup_adjacent (lastExtensionHostError s)
             (toErrorMessage sample_env
              <$> [VStr "A"; VStr "A"; VStr "B"; VStr "A"]).
Proof.
  intros s. split; [reflexivity|].
  exact (error_burst_shows_adjacent_distinct_texts sample_env
           [VStr "A"; VStr "A"; VStr "B"; VStr "A"] s eq_refl).
Defined.

(** *** After the handshake *)

Lemma forEach_postMessage_ready l s :
  extensionHostProcessReady s = true ->
  forEach_postMessage l s = (s, Send <$> l).
Proof.
  intros Hr. induction l as [|m l IH]; [done|].
  simpl. unfold postMessage. by rewrite Hr, IH.
Qed.

Lemma step_stays_ready env i s :
  extensionHostProcessReady s = true ->
  extensionHostProcessReady (step env i s).1 = true.
Proof.
  intros Hr. destruct i; simpl.
  - unfold startExtensionHostProcess. by destruct (negb _ || _).
  - by case_match.
  - unfold postMessage. by rewrite Hr.
  - case_match; [|done].
    unfold on_message, onMessaage, initializeExtensionHost,
      logExtensionHostMessage.
    rewrite (forEach_postMessage_ready _ _ Hr).
    by repeat case_match; simplify_eq/=.
  - case_match; [|done]. unfold onError. by case_match.
  - by case_match.
  - done.
Qed.

Lemma run_stays_ready env ins : forall s,
  extensionHostProcessReady s = true ->
  extensionHostProcessReady (run env ins s).1 = true.
Proof.
  induction ins as [|i ins IH]; intros s H; [done|]. cbn [run].
  pose proof (step_stays_ready env i s H) as H1.
  destruct (step env i s) as [s1 o1]. specialize (IH s1 H1).
  by destruct (run env ins s1) as [s2 o2].
Qed.

(** X5: readiness is permanent.  Once the host is ready it stays ready
    through anything that happens (errors, an exit, [terminate], another
    start); and every message posted from then on is sent to the child at
    once, in the order of submission, without being queued. *)
Theorem ready_host_gets_posts_at_once env ins (l : list value) s :
  extensionHostProcessReady s = true ->
  let s1 := (run env ins s).1 in
  extensionHostProcessReady s1 = true
  /\ run env (PostMessage <$> l) s1 = (s1, Send <$> l).
Proof.
  intros Hr. cbv zeta.
  pose proof (run_stays_ready env ins s Hr) as H1. split; [done|].
  revert H1. generalize (run env ins s).1. intros s1 H1.
  induction l as [|m l IH]; [done|].
  cbn [fmap list_fmap run step]. unfold postMessage. rewrite H1.
  change (list_fmap value input PostMessage l) with (PostMessage <$> l).
  by rewrite IH.
Qed.

Lemma ready_host_gets_posts_at_once_witness :
  let s := (run sample_env
              [StartExtensionHostProcess; Forked VUndefined;
               ChildMessage (VStr "ready"); ChildMessage (VStr "initialized")]
              (constructor sample_env)).1 in
  let ins := [ChildError (VStr "EPIPE"); Terminate; StartExtensionHostProcess] in
  extensionHostProcessReady s = true
  /\ let s1 := (run sample_env ins s).1 in
     extensionHostProcessReady s1 = true
     /\ run sample_env (PostMessage <$> [VStr "x"; VStr "y"]) s1
        = (s1, Send <$> [VStr "x"; VStr "y"]).
Proof.
  intros s ins. split; [reflexivity|].
  exact (ready_host_gets_posts_at_once sample_env ins [VStr "x"; VStr "y"] s
           eq_refl).
Defined.

(** *** The fields along a run *)








Lemma postMessage_flags msg s : flags (postMessage msg s).1 = flags s.
Proof. unfold postMessage, done_send. by repeat case_match. Qed.

Lemma forEach_postMessage_flags l : forall s,
  flags (forEach_postMessage l s).1 = flags s.
Proof.
  induction l as [|m l IH]; intros s; [done|]. cbn [forEach_postMessage].
  pose proof (postMessage_flags m s) as H1.
  destruct (postMessage m s) as [s1 o1]. specialize (IH s1).
  destruct (forEach_postMessage l s1) as [s2 o2]. cbn [fst] in *. congruence.
Qed.

Lemma step_flags env i s : flags (step env i s).1 = flags s.
Proof.
  destruct i; simpl; try done.
  - unfold startExtensionHostProcess. by destruct (negb _ || _).
  - by case_match.
  - apply postMessage_flags.
  - case_match; [|done].
    unfold on_message, onMessaage, initializeExtensionHost,
      logExtensionHostMessage, complete.
    pose proof (forEach_postMessage_flags (unsentMessages s) s) as Hfl.
    destruct (forEach_postMessage (unsentMessages s) s) as [s1 o1].
    unfold flags in *. repeat case_match; simplify_eq/=; congruence.
  - case_match; [|done]. unfold onError. by case_match.
  - by case_match.
Qed.

Lemma run_flags env ins : forall s, flags (run env ins s).1 = flags s.
Proof.
  induction ins as [|i ins IH]; intros s; [done|]. cbn [run].
  pose proof (step_flags env i s) as H1.
  destruct (step env i s) as [s1 o1]. specialize (IH s1).
  destruct (run env ins s1) as [s2 o2]. cbn [fst] in *. congruence.
Qed.

(** X7: when an extension is being developed, an exit of the host that no
    [terminate] preceded never shows a notification: it closes the window,
    or, when tests run from the command line (a tests path and no debugger
    break), reports the exit code on 'vscode:exit' instead. *)
Theorem unexpected_exit_in_development env ins code signal :
  defined_path (extensionDevelopmentPath env) = true ->
  Terminate ∉ ins ->
  (onExit code signal (run env ins (constructor env)).1).2
  = RemoveExitListener
    :: (if defined_path (extensionTestsPath env) && negb (debugBreak env)
        then [IpcSend "vscode:exit" code]
        else [WindowClose]).
Proof.
  intros Hdev Hin. unfold onExit. cbn [snd].
  rewrite (run_not_terminating env ins (constructor env) Hin).
  pose proof (run_flags env ins (constructor env)) as Hf.
  unfold flags in Hf. simpl in Hf. injection Hf as -> -> _.
  rewrite Hdev. simpl. by destruct (defined_path _ && negb _).
Qed.

Lemma unexpected_exit_in_development_witness :
  let env :=
    {| isBuilt := true;
       extensionDevelopmentPath := Some "/ext";
       extensionTestsPath := Some "/ext/test";
       debugBreak := false;
       initPayload := "{init}";
       toErrorMessage := fun _ => "error" |} in
  let ins := [StartExtensionHostProcess; Forked (VNum 5870);
              ChildMessage (VStr "ready")] in
  defined_path (extensionDevelopmentPath env) = true
  /\ (Terminate ∉ ins)
  /\ (onExit (VNum 1) VNull (run env ins (constructor env)).1).2
     = [RemoveExitListener; IpcSend "vscode:exit" (VNum 1)].
Proof.
  intros env ins.
  assert (Terminate ∉ ins) as Hin.
  { repeat (apply not_elem_of_cons; split; [discriminate|]).
    apply not_elem_of_nil. }
  split; [reflexivity|]. split; [exact Hin|].
  exact (unexpected_exit_in_development env ins (VNum 1) VNull eq_refl Hin).
Defined.



End ThreadMore.

(** ** The terminal backend: further properties *)
Module TerminalMore.
Import Js Terminal TerminalExt TerminalFacts.

(** *** [getTerminalLayoutInfo] as a whole *)

(** Every run of [getTerminalLayoutInfo] has one of four shapes. *)
Lemma getTerminalLayoutInfo_shapes svc s :
  let ask := PtyGetTerminalLayoutInfo (workspaceId svc) in
  let answer := ptyGetTerminalLayoutInfo svc (workspaceId svc) in
  (exists message args,
     getTerminalLayoutInfo svc s = (Ok VUndefined, s, [LogWarn message args]))
  \/ (exists pre, Forall loop_effect pre
                  /\ getTerminalLayoutInfo svc s = (answer, s, pre ++ [ask]))
  \/ (exists pre es e,
        Forall loop_effect pre
        /\ ptyReviveTerminalProcesses svc es (locale svc) = Throw e
        /\ getTerminalLayoutInfo svc s
           = (answer, s,
              pre ++ [PtyReviveTerminalProcesses es (locale svc); ask]))
  \/ (exists pre es,
        Forall loop_effect pre
        /\ ptyReviveTerminalProcesses svc es (locale svc) = Ok ()
        /\ getTerminalLayoutInfo svc s
           = (answer, (finish_revival svc s).1.2,
              pre ++ PtyReviveTerminalProcesses es (locale svc)
                     :: (finish_revival svc s).2 ++ [ask])).
Proof.
  intros ask answer.
  destruct (nonempty (storage s !! TerminalBufferState)) as [blob|] eqn:En.
  2: { right; left. exists []. split; [done|].
       by rewrite (getTerminalLayoutInfo_no_blob _ _ En). }
  rewrite (getTerminalLayoutInfo_blob _ _ _ En).
  destruct (JSON_parse svc blob) as [v|e] eqn:Ep.
  2: { right; left. exists []. split; [done|].
       by rewrite (revive_parse_error _ _ _ _ Ep). }
  destruct (valid_schema v) eqn:Ev.
  2: { apply valid_schema_spec in Ev. destruct (is_object v) eqn:Eo.
       - left. destruct (revive_fails_validation svc blob v s Ep Eo Ev)
           as (m & a & ->). by exists m, a.
       - right; left. exists []. split; [done|].
         by rewrite (revive_not_object _ _ _ _ Ep Eo). }
  destruct (revive_valid svc blob v s Ep Ev) as (state & Hst & ->).
  destruct (revive_entries_eval svc (elements state) s)
    as [(e & pre & -> & Hpre)
       |(profileEnv & es & pre & apps & Hprof & Hpre & Hf3 & Happs & ->)].
  { right; left. by exists pre. }
  destruct (ptyReviveTerminalProcesses svc es (locale svc)) as [[]|e] eqn:Er.
  - right; right; right. exists pre, es. repeat split; try done.
    pose proof (finish_revival_not_Return svc s) as Hnr.
    destruct (finish_revival svc s) as [[r s'] rest]. simpl in *.
    destruct r as [[]|e]; try done; by rewrite <- app_assoc.
  - right; right; left. exists pre, es, e. repeat split; try done.
    simpl. by rewrite <- app_assoc.
Qed.

Lemma layout_queries_app (o1 o2 : list effect) :
  layout_queries (o1 ++ o2) = layout_queries o1 ++ layout_queries o2.
Proof. apply omap_app. Qed.

Lemma warnings_app (o1 o2 : list effect) :
  warnings (o1 ++ o2) = warnings o1 ++ warnings o2.
Proof. apply omap_app. Qed.

(** X8: whatever is stored and whatever the collaborators answer, nothing
    that goes wrong during revival reaches the caller.  Either the stored
    state is rejected by the guards, and then the method logs one warning,
    returns undefined, asks the pty host nothing and changes nothing; or the
    method ends by asking the pty host for the layout, exactly once and as its
    last effect, and returns that answer, with no warning logged. *)
Theorem getTerminalLayoutInfo_rejects_or_asks_once svc s :
  let out := effects (getTerminalLayoutInfo svc) s in
  (outcome (getTerminalLayoutInfo svc) s = Ok VUndefined
   /\ final (getTerminalLayoutInfo svc) s = s
   /\ length (warnings out) = 1
   /\ revive_calls out = []
   /\ layout_queries out = [])
  \/ (outcome (getTerminalLayoutInfo svc) s
      = ptyGetTerminalLayoutInfo svc (workspaceId svc)
      /\ warnings out = []
      /\ layout_queries out = [workspaceId svc]
      /\ last out = Some (PtyGetTerminalLayoutInfo (workspaceId svc))).
Proof.
  unfold outcome, final, effects. cbv zeta.
  destruct (getTerminalLayoutInfo_shapes svc s)
    as [(m & a & ->)|[(pre & Hpre & ->)|[(pre & es & e & Hpre & _ & ->)
       |(pre & es & Hpre & _ & ->)]]];
    [by left|right..];
    destruct (loop_effects_views pre Hpre) as (_ & Hw & Hq & _); simpl.
  - rewrite warnings_app, layout_queries_app, Hw, Hq, last_snoc. done.
  - rewrite warnings_app, layout_queries_app, Hw, Hq.
    change [PtyReviveTerminalProcesses es (locale svc);
            PtyGetTerminalLayoutInfo (workspaceId svc)]
      with ([PtyReviveTerminalProcesses es (locale svc)]
            ++ [PtyGetTerminalLayoutInfo (workspaceId svc)]).
    by rewrite app_assoc, last_snoc.
  - destruct (finish_revival_views svc s) as (_ & _ & Hfw & Hfq).
    rewrite warnings_app, layout_queries_app, Hw, Hq. simpl.
    rewrite warnings_app, layout_queries_app, Hfw, Hfq. simpl.
    repeat split; try done.
    by rewrite app_comm_cons, app_assoc, last_snoc.
Qed.

(** X9: [getTerminalLayoutInfo] never writes to the storage: what is stored
    afterwards was stored before, unchanged; and it touches neither the
    registry nor the health fields. *)
Theorem getTerminalLayoutInfo_only_deletes svc s :
  let s' := final (getTerminalLayoutInfo svc) s in
  storage s' ⊆ storage s
  /\ _ptys s' = _ptys s
  /\ _isPtyHostUnresponsive s' = _isPtyHostUnresponsive s
  /\ unresponsiveNotification s' = unresponsiveNotification s.
Proof.
  unfold final. cbv zeta.
  destruct (getTerminalLayoutInfo_shapes svc s)
    as [(m & a & ->)|[(pre & Hpre & ->)|[(pre & es & e & Hpre & _ & ->)
       |(pre & es & Hpre & _ & ->)]]]; try done.
  rewrite finish_revival_eval. simpl.
  repeat case_match; simpl; repeat split; try done;
    try apply delete_subseteq.
  etrans; apply delete_subseteq.
Qed.

(** X10: unless [reviveTerminalProcesses] was called and returned without
    throwing, [getTerminalLayoutInfo] changes nothing: the stored state and
    the stored layout stay as they were, to be tried again on the next
    read. *)
Theorem unsuccessful_revival_changes_nothing svc s :
  (forall es loc,
     (es, loc) ∈ revive_calls (effects (getTerminalLayoutInfo svc) s) ->
     ptyReviveTerminalProcesses svc es loc <> Ok ()) ->
  final (getTerminalLayoutInfo svc) s = s.
Proof.
  unfold final, effects. intros H.
  destruct (getTerminalLayoutInfo_shapes svc s)
    as [(m & a & Heq)|[(pre & Hpre & Heq)|[(pre & es & e & Hpre & _ & Heq)
       |(pre & es & Hpre & Hok & Heq)]]]; rewrite Heq in H |- *; try done.
  exfalso. apply (H es (locale svc)); [|done]. simpl.
  rewrite revive_calls_app. apply elem_of_app. right. simpl.
  apply list_elem_of_here.
Qed.

Lemma unsuccessful_revival_changes_nothing_witness :
  let svc := services_with (Throw (Rejected "pty host")) in
  let s := stored sample_blob (Some sample_layout) in
  (exists es, revive_calls (effects (getTerminalLayoutInfo svc) s)
              = [(es, "en-US")])
  /\ final (getTerminalLayoutInfo svc) s = s.
Proof.
  intros svc s. split; [eexists; by vm_compute|].
  apply (unsuccessful_revival_changes_nothing svc s).
  intros es loc _. discriminate.
Defined.

Lemma Forall3_exists_l {A B C} (P : A -> B -> C -> Prop) l k k' x :
  Forall3 P l k k' -> x ∈ l -> exists y z, P x y z.
Proof.
  induction 1 as [|a b c l k k' HP _ IH]; intros Hx.
  - by apply elem_of_nil in Hx.
  - apply elem_of_cons in Hx as [->|Hx]; eauto.
Qed.

(** X11: there is no partial revival.  If one entry of an accepted
    envelope is not an object (a [null], a number, ...), the pty host is not
    asked to revive any entry, and nothing in the storage changes. *)
Theorem no_partial_revival svc s blob v state entry :
  storage s !! TerminalBufferState = Some blob ->
  JSON_parse svc blob = Ok v ->
  field v "state" = Some state ->
  entry ∈ elements state ->
  is_object entry = false ->
  revive_calls (effects (getTerminalLayoutInfo svc) s) = []
  /\ final (getTerminalLayoutInfo svc) s = s.
Proof.
  intros Hs Hp Hst Hin Hno.
  assert (revive_calls (effects (getTerminalLayoutInfo svc) s) = []) as Hnone.
  { destruct (revive_calls _) as [|[es loc] l] eqn:E; [done|]. exfalso.
    assert ((es, loc) ∈ revive_calls (effects (getTerminalLayoutInfo svc) s))
      as H by (rewrite E; apply list_elem_of_here).
    destruct (getTerminalLayoutInfo_revived svc s es loc H)
      as (blob' & v' & state' & profileEnv & pre & apps & Hs' & _ & Hp' & _
          & Hst' & _ & _ & _ & Hf3 & _).
    rewrite Hs in Hs'. injection Hs' as <-.
    rewrite Hp in Hp'. injection Hp' as <-.
    rewrite Hst in Hst'. injection Hst' as <-.
    destruct (Forall3_exists_l _ _ _ _ _ Hf3 Hin)
      as (e' & ap & slc & plo & baseEnv & env & freshEnv & plo' & _ & Hplo
          & _ & _ & _ & Hset & _).
    destruct entry; simpl in *; by simplify_eq. }
  split; [done|]. apply unsuccessful_revival_changes_nothing.
  intros es loc H. rewrite Hnone in H. by apply elem_of_nil in H.
Qed.

Lemma no_partial_revival_witness :
  let svc := services_with (Ok ()) in
  let s := stored null_entry_blob None in
  VNull ∈ elements (arr [VNull])
  /\ revive_calls (effects (getTerminalLayoutInfo svc) s) = []
  /\ final (getTerminalLayoutInfo svc) s = s.
Proof.
  intros svc s.
  assert (VNull ∈ elements (arr [VNull])) as Hin by apply list_elem_of_here.
  split; [exact Hin|].
  exact (no_partial_revival svc s null_entry_blob
           (obj [("version", VNum 1); ("state", arr [VNull])])
           (arr [VNull]) VNull eq_refl eq_refl eq_refl Hin eq_refl).
Defined.

(** *** Registering sessions *)

(** X12: [createProcess] registers the new session under the id the pty
    host assigned, replacing whatever was registered under it, so that the
    host's events for that id reach the returned handle; when the shell
    environment or the pty host fails, the exception reaches the caller and
    the registry is left as it was (and without a shell environment the pty
    host is not even asked). *)
Theorem createProcess_registers_or_fails svc slc cwd env shouldPersist s :
  let run := createProcess svc slc cwd env shouldPersist in
  match shellEnv svc, ptyCreateProcess svc slc cwd env shouldPersist with
  | Ok _, Ok id =>
      let pty := {| pty_id := id; pty_shouldPersist := shouldPersist |} in
      outcome run s = Ok pty
      /\ _ptys (final run s) = <[id:=pty]> (_ptys s)
      /\ forall ev,
           effects (on_pty_event (ProcessData id ev)) (final run s)
           = [PtyCall pty (handleData ev)]
  | Ok _, Throw e =>
      outcome run s = Throw e /\ final run s = s
  | Throw e, _ =>
      outcome run s = Throw e /\ final run s = s /\ effects run s = []
  end.
Proof.
  intros run0.
  assert (run0 s =
          match shellEnv svc with
          | Ok _ =>
              let out := [LogInfo "env" [env];
                          PtyCreateProcess slc cwd env shouldPersist] in
              match ptyCreateProcess svc slc cwd env shouldPersist with
              | Ok id =>
                  let pty := {| pty_id := id;
                                pty_shouldPersist := shouldPersist |} in
                  (Ok pty, set_ptys (<[id:=pty]> (_ptys s)) s, out)
              | Throw e => (Throw e, s, out)
              end
          | Throw e => (Throw e, s, [])
          end) as Hrun.
  { unfold run0, createProcess. unfold_M. simpl.
    destruct (shellEnv svc); simpl; [|done].
    by destruct (ptyCreateProcess svc slc cwd env shouldPersist). }
  unfold outcome, final, effects. rewrite Hrun.
  destruct (shellEnv svc) as [shell|e]; [|done].
  destruct (ptyCreateProcess svc slc cwd env shouldPersist) as [id|e];
    [|done].
  cbv zeta. cbn [fst snd]. repeat split. intros ev.
  rewrite on_pty_event_eval. simpl. by rewrite lookup_insert_eq.
Qed.


Lemma well_keyed_insert m id shouldPersist :
  well_keyed m ->
  well_keyed (<[id:={| pty_id := id; pty_shouldPersist := shouldPersist |}]> m).
Proof.
  intros H id' p. rewrite lookup_insert.
  case_decide; [by intros [= <-]; subst|apply H].
Qed.

Lemma well_keyed_delete m id : well_keyed m -> well_keyed (delete id m).
Proof.
  intros H id' p. rewrite lookup_delete.
  case_decide; [done|apply H].
Qed.

(** *** The events of one session *)

Lemma calls_of_app id (o1 o2 : list effect) :
  calls_of id (o1 ++ o2) = calls_of id o1 ++ calls_of id o2.
Proof. apply omap_app. Qed.

Lemma calls_of_unregistered id es : forall s,
  _ptys s !! id = None ->
  well_keyed (_ptys s) ->
  calls_of id (effects (on_pty_events es) s) = [].
Proof.
  induction es as [|e es IH]; intros s Hid Hwk; [done|].
  unfold effects in *. rewrite on_pty_events_cons, on_pty_event_eval.
  destruct (_ptys s !! event_id e) as [p|] eqn:Hp.
  - assert (event_id e <> id) as Hne by (intros <-; congruence).
    assert (pty_id p <> id) as Hpne by (by rewrite (Hwk _ _ Hp)).
    set (s1 := if is_exit e then _ else s).
    assert (_ptys s1 !! id = None /\ well_keyed (_ptys s1)) as [H1 H2].
    { unfold s1. destruct (is_exit e); [|done]. simpl.
      split; [by rewrite lookup_delete_ne|by apply well_keyed_delete]. }
    specialize (IH s1 H1 H2).
    destruct (on_pty_events es s1) as [[r s2] o2]. simpl in *.
    by rewrite bool_decide_false.
  - specialize (IH s Hid Hwk).
    by destruct (on_pty_events es s) as [[r s2] o2].
Qed.

(** X14: the events of one session reach its handle in the order of
    receipt.  While a handle is registered for an id, every event of the pty
    host for that id, up to and including the session's exit, calls the
    handler of its kind on a handle of that id, in the order the events
    arrived and whatever events of other sessions come in between; events
    after the exit call nothing. *)
Theorem session_events_reach_handle_in_order id p es : forall s,
  well_keyed (_ptys s) ->
  _ptys s !! id = Some p ->
  calls_of id (effects (on_pty_events es) s)
  = event_call <$> until_exit (events_of id es).
Proof.
  induction es as [|e es IH]; intros s Hwk Hid; [done|].
  unfold effects, events_of in *.
  rewrite on_pty_events_cons, on_pty_event_eval.
  destruct (decide (event_id e = id)) as [Heq|Hne].
  - rewrite filter_cons_True by done. rewrite Heq, Hid.
    assert (pty_id p = id) as Hp by (by apply Hwk).
    destruct (is_exit e) eqn:Hex; cbn [until_exit]; rewrite Hex.
    + pose proof (calls_of_unregistered id es
                    (set_ptys (delete id (_ptys s)) s)) as Hno.
      unfold effects in Hno.
      destruct (on_pty_events es _) as [[r s2] o2]. simpl in *.
      rewrite bool_decide_true by done. f_equal.
      apply Hno; [apply lookup_delete_eq|by apply well_keyed_delete].
    + specialize (IH s Hwk Hid).
      destruct (on_pty_events es s) as [[r s2] o2]. simpl in *.
      rewrite bool_decide_true by done. by rewrite IH.
  - rewrite filter_cons_False by done.
    destruct (_ptys s !! event_id e) as [q|] eqn:Hq.
    + assert (pty_id q <> id) as Hqne by (by rewrite (Hwk _ _ Hq)).
      set (s1 := if is_exit e then _ else s).
      assert (well_keyed (_ptys s1) /\ _ptys s1 !! id = Some p) as [H1 H2].
      { unfold s1. destruct (is_exit e); [|done]. simpl.
        split; [by apply well_keyed_delete|by rewrite lookup_delete_ne]. }
      specialize (IH s1 H1 H2).
      destruct (on_pty_events es s1) as [[r s2] o2]. simpl in *.
      by rewrite bool_decide_false.
    + specialize (IH s Hwk Hid).
      by destruct (on_pty_events es s) as [[r s2] o2].
Qed.

Lemma session_events_reach_handle_in_order_witness :
  let p := {| pty_id := 7; pty_shouldPersist := true |} in
  let q := {| pty_id := 8; pty_shouldPersist := false |} in
  let s := set_ptys (<[7%Z:=p]> (<[8%Z:=q]> ∅)) initial in
  let es := [ProcessReady 7 VNull; ProcessData 8 (VStr "x");
             ProcessData 7 (VStr "a"); ProcessExit 7 (VNum 0);
             ProcessData 7 (VStr "late"); ProcessExit 8 VUndefined] in
  well_keyed (_ptys s)
  /\ _ptys s !! 7%Z = Some p
  /\ calls_of 7 (effects (on_pty_events es) s)
     = event_call <$> until_exit (events_of 7 es).
Proof.
  intros p q s es.
  assert (well_keyed (_ptys s)) as Hwk.
  { apply (well_keyed_insert _ 7 true), (well_keyed_insert _ 8 false).
    by intros id' p'. }
  split; [exact Hwk|]. split; [reflexivity|].
  exact (session_events_reach_handle_in_order 7 p es s Hwk eq_refl).
Defined.

(** X15: events of the pty host never register a handle and never replace
    one: after any stream of events, a session is registered exactly as it
    was before, unless the stream held an exit for its id, in which case it
    is no longer registered. *)
Theorem events_only_remove_exited_sessions id es : forall s,
  _ptys (final (on_pty_events es) s) !! id
  = if exits id es then None else _ptys s !! id.
Proof.
  induction es as [|e es IH]; intros s; [done|].
  unfold final in *. rewrite on_pty_events_cons, on_pty_event_eval.
  cbn [exits existsb]. fold (exits id es).
  destruct (_ptys s !! event_id e) as [p|] eqn:Hp.
  - set (s1 := if is_exit e then _ else s).
    specialize (IH s1).
    destruct (on_pty_events es s1) as [[r s2] o2]. simpl in *.
    rewrite IH. unfold s1. destruct (is_exit e); simpl; [|done].
    case_bool_decide as Hid; simpl.
    + destruct (exits id es); [done|]. subst. apply lookup_delete_eq.
    + destruct (exits id es); [done|]. by rewrite lookup_delete_ne.
  - specialize (IH s).
    destruct (on_pty_events es s) as [[r s2] o2]. simpl in *.
    rewrite IH. destruct (is_exit e); simpl; [|done].
    case_bool_decide as Hid; simpl; [|done].
    destruct (exits id es); [done|]. by subst.
Qed.

(** *** The unresponsive notification *)

Lemma on_host_signals_cons sig sigs s :
  on_host_signals (sig :: sigs) s =
  let '(_, s1, out1) := on_host_signal sig s in
  let '(r, s2, out2) := on_host_signals sigs s1 in
  (r, s2, out1 ++ out2).
Proof.
  simpl. unfold mbind, M_bind.
  pose proof (proj1 (on_host_signal_final sig s)) as Hok.
  unfold outcome in Hok.
  destruct (on_host_signal sig s) as [[r s1] o1]. simpl in Hok. by subst.
Qed.

Lemma on_host_signal_closed sig s :
  closed (effects (on_host_signal sig) s) =
  match sig with
  | PtyHostStart => option_list (unresponsiveNotification s)
  | PtyHostResponsive =>
      if _isPtyHostUnresponsive s
      then option_list (unresponsiveNotification s) else []
  | _ => []
  end.
Proof.
  unfold effects. destruct sig; try done.
  - simpl. unfold close_notification. unfold_M.
    by destruct (unresponsiveNotification s).
  - rewrite on_host_signal_responsive.
    destruct (_isPtyHostUnresponsive s); [|done].
    by destruct (unresponsiveNotification s).
Qed.

Lemma closed_app (o1 o2 : list effect) :
  closed (o1 ++ o2) = closed o1 ++ closed o2.
Proof. apply omap_app. Qed.

Lemma closed_handles_distinct sigs : forall s,
  NoDup (option_list (unresponsiveNotification s) ++ prompted sigs) ->
  NoDup (closed (effects (on_host_signals sigs) s))
  /\ closed (effects (on_host_signals sigs) s)
     ⊆ option_list (unresponsiveNotification s) ++ prompted sigs.
Proof.
  induction sigs as [|sig sigs IH]; intros s Hnd.
  { split; [apply NoDup_nil_2|apply list_subseteq_nil]. }
  unfold effects in *. rewrite on_host_signals_cons.
  pose proof (on_host_signal_closed sig s) as Hc.
  pose proof (proj2 (on_host_signal_final sig s)) as Hf.
  unfold effects, final in Hc, Hf.
  destruct (on_host_signal sig s) as [[r1 s1] o1]. simpl in Hc, Hf.
  specialize (IH s1).
  destruct (on_host_signals sigs s1) as [[r2 s2] o2]. simpl in *.
  rewrite closed_app, Hc. clear Hc. subst s1.
  destruct sig; simpl in *.
  - destruct (IH Hnd) as [H1 H2]. done.
  - apply NoDup_app in Hnd as (Hn & Hdisj & Hp).
    destruct (IH Hp) as [H1 H2]. split.
    + apply NoDup_app. repeat split; [done| |done].
      intros x Hx Hx2. by apply (Hdisj x Hx), H2.
    + intros x [Hx|Hx]%elem_of_app; apply elem_of_app; [by left|].
      right. by apply H2.
  - apply NoDup_app in Hnd as (Hn & Hdisj & Hp).
    destruct (IH Hp) as [H1 H2]. split; [done|].
    intros x Hx. apply elem_of_app. right. by apply H2.
  - destruct (_isPtyHostUnresponsive s).
    + apply NoDup_app in Hnd as (Hn & Hdisj & Hp).
      destruct (IH Hp) as [H1 H2]. split.
      * apply NoDup_app. repeat split; [done| |done].
        intros x Hx Hx2. by apply (Hdisj x Hx), H2.
      * intros x [Hx|Hx]%elem_of_app; apply elem_of_app; [by left|].
        right. by apply H2.
    + destruct (IH Hnd) as [H1 H2]. done.
Qed.

(** X16: no notification is closed twice, and none is closed that was not
    opened.  If the notification service answers every prompt with a handle
    of its own, the handles the health listeners close, over any sequence of
    host signals, are pairwise distinct and are all handles of earlier
    prompts. *)
Theorem notifications_closed_at_most_once sigs s :
  unresponsiveNotification s = None ->
  NoDup (prompted sigs) ->
  NoDup (closed (effects (on_host_signals sigs) s))
  /\ closed (effects (on_host_signals sigs) s) ⊆ prompted sigs.
Proof.
  intros Hn Hnd.
  pose proof (closed_handles_distinct sigs s) as H.
  rewrite Hn in H. by apply H.
Qed.

Lemma notifications_closed_at_most_once_witness :
  let sigs := [PtyHostUnresponsive 1; PtyHostResponsive; PtyHostResponsive;
               PtyHostUnresponsive 2; PtyHostUnresponsive 3; PtyHostStart;
               PtyHostStart] in
  NoDup (prompted sigs)
  /\ NoDup (closed (effects (on_host_signals sigs) initial))
  /\ closed (effects (on_host_signals sigs) initial) ⊆ prompted sigs.
Proof.
  intros sigs.
  assert (NoDup (prompted sigs)) as Hnd.
  { repeat (apply NoDup_cons; split;
            [intros H; repeat (apply elem_of_cons in H as [H|H];
                               [discriminate|]); by apply elem_of_nil in H|]).
    apply NoDup_nil_2. }
  split; [exact Hnd|].
  exact (notifications_closed_at_most_once sigs initial eq_refl Hnd).
Defined.

(** *** Variable resolution for the pty host *)

Lemma resolve_all_spec (resolve : string -> result string) texts :
  match resolve_all resolve texts with
  | Some result => Forall2 (fun t r => resolve t = Ok r) texts result
  | None => exists t err, t ∈ texts /\ resolve t = Throw err
  end.
Proof.
  induction texts as [|t texts IH]; simpl; [constructor|].
  destruct (resolve t) as [r|err] eqn:E.
  - destruct (resolve_all resolve texts) as [rs|].
    + by constructor.
    + destruct IH as (t' & err & Hin & Ht'). exists t', err.
      split; [by apply list_elem_of_further|done].
  - exists t, err. split; [apply list_elem_of_here|done].
Qed.

(** X17: the backend answers a request of the pty host to resolve
    variables only when the request names its own workspace, and then all or
    nothing: when every text resolves, it hands the pty host one answer, under
    the id of the request, with the resolved texts in the order of the
    request; when some text fails to resolve, it hands over nothing.  A
    request of another workspace is ignored without resolving anything. *)
Theorem resolve_request_answered_all_or_nothing svc resolveAsync root e :
  let resolve := resolveAsync (root ≫= getWorkspaceFolder svc) in
  match onPtyHostRequestResolveVariables svc resolveAsync root e with
  | Some [] => req_workspaceId e <> workspaceId svc
  | Some [(id, result)] =>
      req_workspaceId e = workspaceId svc
      /\ id = req_requestId e
      /\ Forall2 (fun t r => resolve t = Ok r) (req_originalText e) result
  | Some _ => False
  | None =>
      req_workspaceId e = workspaceId svc
      /\ exists t err, t ∈ req_originalText e /\ resolve t = Throw err
  end.
Proof.
  unfold onPtyHostRequestResolveVariables. cbv zeta.
  destruct (String.eqb_spec (req_workspaceId e) (workspaceId svc)) as [Heq|Hne];
    simpl; [|done].
  pose proof (resolve_all_spec
                (resolveAsync (root ≫= getWorkspaceFolder svc))
                (req_originalText e)) as H.
  by destruct (resolve_all _ _).
Qed.

(** *** The stored layout *)

(** X18: [setTerminalLayoutInfo] stores the layout only after the pty host
    has accepted it.  It sends the pty host the workspace id with the tabs of
    the layout; when the host accepts, the serialized arguments replace the
    stored layout; when it rejects, the exception reaches the caller (it is
    not swallowed) and the storage is as before. *)
Theorem setTerminalLayoutInfo_stores_what_the_host_accepted
    stringify svc layoutInfo s :
  let args := layout_args svc layoutInfo in
  let run := setTerminalLayoutInfo_of stringify svc layoutInfo in
  effects run s = [PtySetTerminalLayoutInfo args]
  /\ match ptySetTerminalLayoutInfo svc args with
     | Ok _ =>
         outcome run s = Ok ()
         /\ final run s
            = set_storage (<[TerminalLayoutInfo:=stringify args]> (storage s)) s
     | Throw e => outcome run s = Throw e /\ final run s = s
     end.
Proof.
  cbv zeta.
  unfold setTerminalLayoutInfo_of, setTerminalLayoutInfo. unfold_M. simpl.
  by destruct (ptySetTerminalLayoutInfo svc _) as [[]|e].
Qed.




End TerminalMore.
